(** * HackMIT course recommender: a shallow embedding and its properties

    The development follows the two Python modules of the repository:

    - [Split_initial_Json.py]: the corpus partitioner
      ([clean_filename], [split_courses_by_department]);
    - [course_recommender.py]: the completion client ([_call_claude_api])
      and the three pipeline stages ([select_departments],
      [select_courses_with_prerequisites], [create_learning_roadmap]).

    Python strings are sequences of Unicode code points, modelled as
    [list N].  Python exceptions are modelled by a [result] type, and
    the mutable world (the recommender object, the completion service,
    the sleep log, the file system) by explicit state passing.  Calls
    of the logger and [print] have no bearing on what is returned and
    are left out. *)

From Stdlib Require Import Ascii String DecimalString.
From Stdlib Require Import List ZArith NArith Bool Lia Sorted.
Import ListNotations.

Set Implicit Arguments.

(* ================================================================= *)
(** * Python strings *)

Module Str.

Definition char := N.
Definition str := list char.

(** An ASCII literal as a Python string. *)
Definition lit (s : String.string) : str :=
  map N_of_ascii (String.list_ascii_of_string s).
Arguments lit s%_string.

(** A literal in which a backquote stands for the double quote, so that
    JSON texts can be written inline. *)
Definition jlit (s : String.string) : str :=
  map (fun c => if N.eqb c 96 then 34%N else c) (lit s).
Arguments jlit s%_string.

Fixpoint eqb (a b : str) : bool :=
  match a, b with
  | [], [] => true
  | x :: a', y :: b' => N.eqb x y && eqb a' b'
  | _, _ => false
  end.

(** [s.startswith(p)] *)
Fixpoint startswith (p s : str) : bool :=
  match p, s with
  | [], _ => true
  | x :: p', y :: s' => N.eqb x y && startswith p' s'
  | _ :: _, [] => false
  end.

(** [sub in s] *)
Fixpoint contains (sub s : str) : bool :=
  startswith sub s ||
  match s with
  | [] => false
  | _ :: rest => contains sub rest
  end.

(** [s.replace(old, new)] scans left to right and replaces the
    non-overlapping occurrences of [old].  [skip] counts the characters
    of a matched occurrence that are still to be passed over. *)
Fixpoint replace_from (old new : str) (skip : nat) (s : str) : str :=
  match s with
  | [] => []
  | c :: rest =>
      match skip with
      | S k => replace_from old new k rest
      | O =>
          if startswith old s
          then new ++ replace_from old new (length old - 1) rest
          else c :: replace_from old new 0 rest
      end
  end.

Definition replace (old new s : str) : str :=
  match old with
  | [] => new ++ flat_map (fun c => c :: new) s
  | _ :: _ => replace_from old new 0 s
  end.

(** [str.isspace] on one code point (CPython's [_PyUnicode_IsWhitespace]). *)
Definition isspace (c : char) : bool :=
  ((9 <=? c) && (c <=? 13) || (28 <=? c) && (c <=? 32) ||
   (c =? 133) || (c =? 160) || (c =? 5760) ||
   (8192 <=? c) && (c <=? 8202) || (c =? 8232) || (c =? 8233) ||
   (c =? 8239) || (c =? 8287) || (c =? 12288))%N.

Fixpoint lstrip (s : str) : str :=
  match s with
  | c :: rest => if isspace c then lstrip rest else s
  | [] => []
  end.

Definition rstrip (s : str) : str := rev (lstrip (rev s)).

(** [s.strip()] *)
Definition strip (s : str) : str := rstrip (lstrip s).

(** [sep.join(parts)] *)
Fixpoint join (sep : str) (parts : list str) : str :=
  match parts with
  | [] => []
  | [p] => p
  | p :: more => p ++ sep ++ join sep more
  end.

End Str.

Import Str.

(* ================================================================= *)
(** * The corpus partitioner: name sanitization

    [Split_initial_Json.py], [clean_filename]. *)

Definition underscore : char := 95%N.
Definition space : char := 32%N.

(** [invalid_chars]: less-than, greater-than, colon, double quote, slash,
    backslash, vertical bar, question mark, asterisk. *)
Definition invalid_chars : str := [60; 62; 58; 34; 47; 92; 124; 63; 42]%N.

(** [while '__' in filename: filename = filename.replace('__', '_')].
    Every round shortens the string, so [length filename] rounds are
    enough ([collapse_loop_fixed] below). *)
Fixpoint collapse_loop (fuel : nat) (filename : str) : str :=
  match fuel with
  | O => filename
  | S fuel' =>
      if contains [underscore; underscore] filename
      then collapse_loop fuel' (replace [underscore; underscore] [underscore] filename)
      else filename
  end.

Definition clean_filename (filename : str) : str :=
  let filename :=
    fold_left (fun filename char => replace [char] [underscore] filename)
              invalid_chars filename in
  let filename := replace [space] [underscore] (strip filename) in
  collapse_loop (length filename) filename.

(* ================================================================= *)
(** * Python values read from JSON *)

(** A Python float as [json.loads] obtains it: the decimal [m * 10^e]
    written in the text, a NaN or an infinity.  Only its truth value is
    ever inspected by the code. *)
Inductive pyfloat :=
| FDec (m e : Z)
| FNaN
| FInf (negative : bool).

#[local] Set Warnings "-register-all".

Inductive json :=
| JNull
| JBool (b : bool)
| JInt (z : Z)
| JFloat (f : pyfloat)
| JString (s : str)
| JArray (items : list json)
| JObject (members : list (str * json)).

(** Python exceptions that the modelled code can meet.  A
    [JSONDecodeError] carries the document that could not be decoded,
    as the exception object does. *)
Inductive exn :=
| IndexError
| TypeError
| AttributeError
| JSONDecodeError (doc : str)
| OSError.

Inductive result (A : Type) :=
| Return (a : A)
| Raise (e : exn).
Arguments Return {A} a.
Arguments Raise {A} e.

(** ** Dictionaries: association lists in insertion order *)

Fixpoint dict_get {V} (k : str) (d : list (str * V)) : option V :=
  match d with
  | [] => None
  | (k', v) :: d' => if Str.eqb k k' then Some v else dict_get k d'
  end.

(** [d[k] = v]: an existing key keeps its position. *)
Fixpoint dict_set {V} (k : str) (v : V) (d : list (str * V)) : list (str * V) :=
  match d with
  | [] => [(k, v)]
  | (k', v') :: d' =>
      if Str.eqb k k' then (k, v) :: d' else (k', v') :: dict_set k v d'
  end.

Definition dict_has {V} (k : str) (d : list (str * V)) : bool :=
  match dict_get k d with Some _ => true | None => false end.

Definition keys {V} (d : list (str * V)) : list str := map fst d.

(** ** Truth values, iteration, methods *)

(** A decimal [m * 10^e] is read as the float [0.0] exactly when its
    magnitude is at most [2^-1075], half of the least positive float. *)
Definition float_is_zero (f : pyfloat) : bool :=
  match f with
  | FDec m e =>
      if (m =? 0)%Z then true
      else if (0 <=? e)%Z then false
      else (Z.abs m * 2 ^ 1075 <=? 10 ^ (- e))%Z
  | FNaN | FInf _ => false
  end.

(** [bool(v)] *)
Definition truthy (v : json) : bool :=
  match v with
  | JNull => false
  | JBool b => b
  | JInt z => negb (z =? 0)%Z
  | JFloat f => negb (float_is_zero f)
  | JString s => match s with [] => false | _ => true end
  | JArray l => match l with [] => false | _ => true end
  | JObject m => match m with [] => false | _ => true end
  end.

(** [list(iter(v))]: lists yield their items, strings their
    characters, dictionaries their keys; nothing else is iterable. *)
Definition py_iter (v : json) : result (list json) :=
  match v with
  | JArray l => Return l
  | JString s => Return (map (fun c => JString [c]) s)
  | JObject m => Return (map (fun kv => JString (fst kv)) m)
  | _ => Raise TypeError
  end.

(** [v.get(key, default)]: only dictionaries have the method. *)
Definition py_get (v : json) (key : str) (default : json) : result json :=
  match v with
  | JObject m =>
      Return (match dict_get key m with Some x => x | None => default end)
  | _ => Raise AttributeError
  end.

(** [sep.join(v)]: the items of the iterable must all be strings. *)
Fixpoint all_strings (l : list json) : result (list str) :=
  match l with
  | [] => Return []
  | JString s :: l' =>
      match all_strings l' with
      | Return ss => Return (s :: ss)
      | Raise e => Raise e
      end
  | _ :: _ => Raise TypeError
  end.

Definition py_join (sep : str) (v : json) : result str :=
  match py_iter v with
  | Raise e => Raise e
  | Return items =>
      match all_strings items with
      | Raise e => Raise e
      | Return ss => Return (join sep ss)
      end
  end.

(* ================================================================= *)
(** * [json.loads]

    The decoder of the Python standard library, as a lexer over code
    points followed by a push-down recogniser over tokens.  Both are
    single passes, structurally recursive on their input.  Every
    failure of the decoder is a [JSONDecodeError]; the interpreter's
    limits (depth of nesting, digits of an integer), past which CPython
    raises [RecursionError] or [ValueError] where this decoder goes on,
    are not modelled. *)

Module Json.

Inductive token :=
| TLBracket | TRBracket | TLBrace | TRBrace | TComma | TColon
| TStr (s : str)
| TAtom (v : json)
| TBad.

Definition isdigit (c : char) : bool := ((48 <=? c) && (c <=? 57))%N.

Definition isalpha (c : char) : bool :=
  ((65 <=? c) && (c <=? 90) || (97 <=? c) && (c <=? 122))%N.

(** Characters of numbers and of the literal names. *)
Definition isatom (c : char) : bool :=
  isdigit c || isalpha c || (c =? 43)%N || (c =? 45)%N || (c =? 46)%N.

(** Whitespace between tokens: space, tab, line feed, carriage return. *)
Definition isws (c : char) : bool :=
  ((c =? 32) || (c =? 9) || (c =? 10) || (c =? 13))%N.

Definition hexval (c : char) : option N :=
  if isdigit c then Some (c - 48)%N
  else if ((65 <=? c) && (c <=? 70))%N then Some (c - 55)%N
  else if ((97 <=? c) && (c <=? 102))%N then Some (c - 87)%N
  else None.

Fixpoint span (p : char -> bool) (s : str) : str * str :=
  match s with
  | c :: rest =>
      if p c then let (a, b) := span p rest in (c :: a, b) else ([], s)
  | [] => ([], [])
  end.

Definition digits_val (ds : str) : Z :=
  fold_left (fun acc c => (10 * acc + Z.of_N (c - 48))%Z) ds 0%Z.

(** A number: an optional minus sign, an integer part (a lone zero, or
    digits not starting with zero), an optional fraction (a dot and one
    or more digits), an optional exponent (e or E, an optional sign, one
    or more digits).  It is an integer when it has neither fraction nor
    exponent. *)
Definition parse_number (s : str) : option json :=
  let (neg, s1) :=
    match s with
    | c :: r => if (c =? 45)%N then (true, r) else (false, s)
    | [] => (false, s)
    end in
  let sign (z : Z) := if neg then (- z)%Z else z in
  let (ip, s2) := span isdigit s1 in
  match ip with
  | [] => None
  | d :: more =>
      if (d =? 48)%N && negb (match more with [] => true | _ => false end)
      then None
      else
        let '(frac, s3) :=
          match s2 with
          | c :: r =>
              if (c =? 46)%N
              then let (f, r') := span isdigit r in (Some f, r')
              else (None, s2)
          | [] => (None, s2)
          end in
        let '(ex, s4) :=
          match s3 with
          | c :: r =>
              if ((c =? 101) || (c =? 69))%N
              then
                let (eneg, r1) :=
                  match r with
                  | c' :: r' =>
                      if (c' =? 45)%N then (true, r')
                      else if (c' =? 43)%N then (false, r')
                      else (false, r)
                  | [] => (false, r)
                  end in
                let (ds, r2) := span isdigit r1 in
                (Some (eneg, ds), r2)
              else (None, s3)
          | [] => (None, s3)
          end in
        match s4, frac, ex with
        | _ :: _, _, _ => None
        | [], Some [], _ => None
        | [], _, Some (_, []) => None
        | [], None, None => Some (JInt (sign (digits_val ip)))
        | [], _, _ =>
            let fd := match frac with Some f => f | None => [] end in
            let e := match ex with
                     | Some (eneg, ds) =>
                         if eneg then (- digits_val ds)%Z else digits_val ds
                     | None => 0%Z
                     end in
            Some (JFloat (FDec (sign (digits_val (ip ++ fd)))
                               (e - Z.of_nat (length fd))))
        end
  end.

Definition classify_atom (s : str) : token :=
  if Str.eqb s (lit "null") then TAtom JNull
  else if Str.eqb s (lit "true") then TAtom (JBool true)
  else if Str.eqb s (lit "false") then TAtom (JBool false)
  else if Str.eqb s (lit "NaN") then TAtom (JFloat FNaN)
  else if Str.eqb s (lit "Infinity") then TAtom (JFloat (FInf false))
  else if Str.eqb s (lit "-Infinity") then TAtom (JFloat (FInf true))
  else match parse_number s with
       | Some v => TAtom v
       | None => TBad
       end.

(** Lexer modes.  Accumulators are kept in reverse.  [high] records
    that the last character of the string came from a [\u] escape
    naming a high surrogate, which a following [\u] low surrogate
    completes into one code point. *)
Inductive mode :=
| Idle
| InAtom (acc : str)
| InStr (acc : str) (high : bool)
| InEsc (acc : str) (high : bool)
| InHex (acc : str) (high : bool) (digits : list N).

Definition punct (c : char) : option token :=
  if (c =? 91)%N then Some TLBracket
  else if (c =? 93)%N then Some TRBracket
  else if (c =? 123)%N then Some TLBrace
  else if (c =? 125)%N then Some TRBrace
  else if (c =? 44)%N then Some TComma
  else if (c =? 58)%N then Some TColon
  else None.

(** The lexer outside of strings and atoms.  [toks] is in reverse. *)
Definition lex_idle (toks : list token) (c : char) : mode * list token :=
  if isws c then (Idle, toks)
  else if (c =? 34)%N then (InStr [] false, toks)
  else if isatom c then (InAtom [c], toks)
  else match punct c with
       | Some t => (Idle, t :: toks)
       | None => (Idle, TBad :: toks)
       end.

Definition escape (c : char) : option char :=
  if (c =? 34)%N then Some 34%N
  else if (c =? 92)%N then Some 92%N
  else if (c =? 47)%N then Some 47%N
  else if (c =? 98)%N then Some 8%N
  else if (c =? 102)%N then Some 12%N
  else if (c =? 110)%N then Some 10%N
  else if (c =? 114)%N then Some 13%N
  else if (c =? 116)%N then Some 9%N
  else None.

Definition is_high (u : N) : bool := ((55296 <=? u) && (u <=? 56319))%N.
Definition is_low (u : N) : bool := ((56320 <=? u) && (u <=? 57343))%N.

(** The code point [u] of a completed [\uXXXX] escape joins the string. *)
Definition push_escaped (acc : str) (high : bool) (u : N) : mode :=
  match acc, high && is_low u with
  | h :: acc', true =>
      InStr ((65536 + (h - 55296) * 1024 + (u - 56320))%N :: acc') false
  | _, _ => InStr (u :: acc) (is_high u)
  end.

Definition lex_step (st : mode * list token) (c : char) : mode * list token :=
  let (m, toks) := st in
  match m with
  | Idle => lex_idle toks c
  | InAtom acc =>
      if isatom c then (InAtom (c :: acc), toks)
      else lex_idle (classify_atom (rev acc) :: toks) c
  | InStr acc high =>
      if (c =? 34)%N then (Idle, TStr (rev acc) :: toks)
      else if (c =? 92)%N then (InEsc acc high, toks)
      else if (c <? 32)%N then (Idle, TBad :: toks)
      else (InStr (c :: acc) false, toks)
  | InEsc acc high =>
      if (c =? 117)%N then (InHex acc high [], toks)
      else match escape c with
           | Some x => (InStr (x :: acc) false, toks)
           | None => (Idle, TBad :: toks)
           end
  | InHex acc high ds =>
      match hexval c with
      | None => (Idle, TBad :: toks)
      | Some d =>
          match ds with
          | [d1; d2; d3] =>
              (push_escaped acc high (((d1 * 16 + d2) * 16 + d3) * 16 + d)%N,
               toks)
          | _ => (InHex acc high (ds ++ [d]), toks)
          end
      end
  end.

Definition lex (s : str) : list token :=
  let (m, toks) := fold_left lex_step s (Idle, []) in
  rev (match m with
       | Idle => toks
       | InAtom acc => classify_atom (rev acc) :: toks
       | InStr _ _ | InEsc _ _ | InHex _ _ _ => TBad :: toks
       end).

(** An open container: an array with the items read so far (in
    reverse), or an object with its members so far and the key whose
    value is being read. *)
Inductive frame :=
| FArray (items : list json)
| FObject (members : list (str * json)) (key : str).

Inductive pstate :=
| SValue (stack : list frame)
| SArrayStart (stack : list frame)
| SObjectStart (stack : list frame)
| SKey (stack : list frame) (members : list (str * json))
| SColon (stack : list frame) (members : list (str * json)) (key : str)
| SAfter (v : json) (stack : list frame)
| SError.

Definition begin_value (t : token) (stack : list frame) : pstate :=
  match t with
  | TAtom v => SAfter v stack
  | TStr s => SAfter (JString s) stack
  | TLBracket => SArrayStart stack
  | TLBrace => SObjectStart stack
  | _ => SError
  end.

Definition parse_step (st : pstate) (t : token) : pstate :=
  match st with
  | SValue stack => begin_value t stack
  | SArrayStart stack =>
      match t with
      | TRBracket => SAfter (JArray []) stack
      | _ => begin_value t (FArray [] :: stack)
      end
  | SObjectStart stack =>
      match t with
      | TRBrace => SAfter (JObject []) stack
      | TStr k => SColon stack [] k
      | _ => SError
      end
  | SKey stack members =>
      match t with
      | TStr k => SColon stack members k
      | _ => SError
      end
  | SColon stack members k =>
      match t with
      | TColon => SValue (FObject members k :: stack)
      | _ => SError
      end
  | SAfter v (FArray items :: stack) =>
      match t with
      | TComma => SValue (FArray (v :: items) :: stack)
      | TRBracket => SAfter (JArray (rev (v :: items))) stack
      | _ => SError
      end
  | SAfter v (FObject members k :: stack) =>
      match t with
      | TComma => SKey stack (dict_set k v members)
      | TRBrace => SAfter (JObject (dict_set k v members)) stack
      | _ => SError
      end
  | SAfter _ [] => SError
  | SError => SError
  end.

Definition loads (s : str) : result json :=
  match fold_left parse_step (lex s) (SValue []) with
  | SAfter v [] => Return v
  | _ => Raise (JSONDecodeError s)
  end.

End Json.

Definition json_loads := Json.loads.

(* ================================================================= *)
(** * [re.search] for the two extraction patterns

    A backtracking matcher for the fragment of regular expressions the
    stages use, under [re.DOTALL] (the dot matches every character):
    literal characters, the lazy [.*?] and the greedy [.*]. *)

Module Re.

Inductive atom :=
| Lit (c : char)
| DotStarLazy
| DotStarGreedy.

(** [match_here p s]: the text matched by [p] at the start of [s], with
    the alternatives tried in the order of a backtracking engine. *)
Fixpoint match_here (p : list atom) : str -> option str :=
  match p with
  | [] => fun _ => Some []
  | Lit c :: p' =>
      fun s =>
        match s with
        | x :: s' =>
            if (x =? c)%N then option_map (cons x) (match_here p' s') else None
        | [] => None
        end
  | DotStarLazy :: p' =>
      fix lazy (s : str) : option str :=
        match match_here p' s with
        | Some m => Some m
        | None =>
            match s with
            | x :: s' => option_map (cons x) (lazy s')
            | [] => None
            end
        end
  | DotStarGreedy :: p' =>
      fix greedy (s : str) : option str :=
        match s with
        | x :: s' =>
            match greedy s' with
            | Some m => Some (x :: m)
            | None => match_here p' s
            end
        | [] => match_here p' []
        end
  end.

(** [re.search(p, s)]: the match at the leftmost position that has one;
    the result is [json_match.group()]. *)
Fixpoint search (p : list atom) (s : str) : option str :=
  match match_here p s with
  | Some m => Some m
  | None =>
      match s with
      | _ :: s' => search p s'
      | [] => None
      end
  end.

End Re.

Definition lbracket : char := 91%N.
Definition rbracket : char := 93%N.
Definition lbrace : char := 123%N.
Definition rbrace : char := 125%N.

(** The pattern of stages 1 and 2: an opening bracket, lazily anything,
    a closing bracket. *)
Definition array_pattern : list Re.atom :=
  [Re.Lit lbracket; Re.DotStarLazy; Re.Lit rbracket].

(** The pattern of stage 3: an opening brace, greedily anything, a
    closing brace. *)
Definition object_pattern : list Re.atom :=
  [Re.Lit lbrace; Re.DotStarGreedy; Re.Lit rbrace].

(** The extraction step shared by the stages: locate, then parse.
    [None] when the pattern matches nowhere. *)
Definition extract (pattern : list Re.atom) (response : str)
  : option (result json) :=
  option_map json_loads (Re.search pattern response).

(* ================================================================= *)
(** * The world of the recommender *)

(** The prompt of a stage, as the values interpolated into its fixed
    template.  Values formatted with [str()] are kept as they are. *)
Inductive Prompt :=
| DepartmentsPrompt
    (advisor_description conversation_transcript skills_text
     departments_text : str)
| CoursesPrompt
    (department advisor_description conversation_transcript skills_text : str)
    (courses_text : list (json * json))
| RoadmapPrompt
    (profile_text : option json)
    (courses_text : list (Z * (json * json * json * str))).

(** A file as [open] and [read] see it. *)
Inductive File :=
| FileText (content : str)
| FileUnreadable.

(** What the code reads and never writes: the completion service,
    which answers the [n]-th request sent to it with a text or with an
    exception ([None]); the file system; and [str(e)], the interpreter's
    and the library's wording of an exception. *)
Record Env := {
  service : nat -> Prompt -> option str;
  files : str -> option File;
  exception_text : exn -> str
}.

(** What the code can change: the recommender object's catalog, the
    number of requests sent to the service, and the durations passed to
    [time.sleep], oldest first. *)
Record State := {
  available_departments : list (str * Z);
  requests : nat;
  slept : list Z
}.

(** Computations that read and change the state and may raise. *)
Definition M (A : Type) : Type := State -> result A * State.

Definition ret {A} (a : A) : M A := fun st => (Return a, st).

Definition raise {A} (e : exn) : M A := fun st => (Raise e, st).

Definition bind {A B} (m : M A) (k : A -> M B) : M B :=
  fun st =>
    match m st with
    | (Return a, st') => k a st'
    | (Raise e, st') => (Raise e, st')
    end.

(** [try: m except Exception as e: handler(e)] *)
Definition try_except {A} (m : M A) (handler : exn -> M A) : M A :=
  fun st =>
    match m st with
    | (Return a, st') => (Return a, st')
    | (Raise e, st') => handler e st'
    end.

Definition lift {A} (r : result A) : M A := fun st => (r, st).

Notation "x <- m ;; k" := (bind m (fun x => k))
  (at level 61, m at next level, right associativity).

(** [CourseRecommendationSystem.__init__]: the catalog. *)
Definition init_departments : list (str * Z) :=
  [ (lit "Aeronautics_and_Astronautics", 92);
    (lit "Anthropology", 67);
    (lit "Architecture", 116);
    (lit "Athletics,_Physical_Education_and_Recreation", 10);
    (lit "Biological_Engineering", 41);
    (lit "Biology", 85);
    (lit "Brain_and_Cognitive_Sciences", 99);
    (lit "Chemical_Engineering", 57);
    (lit "Chemistry", 43);
    (lit "Civil_and_Environmental_Engineering", 105);
    (lit "Comparative_Media_Studies_Writing", 71);
    (lit "Concourse", 5);
    (lit "Earth,_Atmospheric,_and_Planetary_Sciences", 111);
    (lit "Economics", 85);
    (lit "Edgerton_Center", 28);
    (lit "Electrical_Engineering_and_Computer_Science", 298);
    (lit "Engineering_Systems_Division", 66);
    (lit "Experimental_Study_Group", 30);
    (lit "Global_Studies_and_Languages", 121);
    (lit "Health_Sciences_and_Technology", 72);
    (lit "History", 91);
    (lit "Institute_for_Data,_Systems,_and_Society", 20);
    (lit "Linguistics_and_Philosophy", 85);
    (lit "Literature", 128);
    (lit "Materials_Science_and_Engineering", 92);
    (lit "Mathematics", 213);
    (lit "Mechanical_Engineering", 162);
    (lit "Media_Arts_and_Sciences", 47);
    (lit "Music_and_Theater_Arts", 69);
    (lit "Nuclear_Science_and_Engineering", 53);
    (lit "Others", 447);
    (lit "Physics", 117);
    (lit "Political_Science", 97);
    (lit "Science,_Technology_and_Society", 70);
    (lit "Sloan_School_of_Management", 218);
    (lit "Special_Programs", 2);
    (lit "Urban_Studies_and_Planning", 211);
    (lit "Women's_and_Gender_Studies", 61) ]%Z.

Definition init : State :=
  {| available_departments := init_departments; requests := 0; slept := [] |}.

(* ================================================================= *)
(** * The completion client: [_call_claude_api] *)

(** One request: the service is asked, and the request is counted. *)
Definition messages_create (env : Env) (prompt : Prompt) (st : State)
  : option str * State :=
  (service env (requests st) prompt,
   {| available_departments := available_departments st;
      requests := S (requests st);
      slept := slept st |}).

(** [time.sleep(seconds)] *)
Definition sleep (seconds : Z) (st : State) : State :=
  {| available_departments := available_departments st;
     requests := requests st;
     slept := slept st ++ [seconds] |}.

(** The loop [for attempt in range(max_retries)], with [todo] the number
    of iterations left and [attempt] the loop variable. *)
Fixpoint attempts (env : Env) (prompt : Prompt) (max_retries : Z)
  (todo : nat) (attempt : Z) (st : State) : option str * State :=
  match todo with
  | O => (None, st)
  | S todo' =>
      match messages_create env prompt st with
      | (Some text, st1) => (Some text, st1)
      | (None, st1) =>
          if (attempt <? max_retries - 1)%Z
          then attempts env prompt max_retries todo' (attempt + 1)%Z
                        (sleep (2 ^ attempt)%Z st1)
          else (None, st1)
      end
  end.

Definition _call_claude_api (env : Env) (prompt : Prompt) (max_retries : Z)
  (st : State) : option str * State :=
  attempts env prompt max_retries (Z.to_nat max_retries) 0%Z st.

(** The client as a computation: it returns [None] where it fails and
    never raises. *)
Definition call_api (env : Env) (prompt : Prompt) : M (option str) :=
  fun st =>
    let (response, st') := _call_claude_api env prompt 3 st in
    (Return response, st').

(* ================================================================= *)
(** * Stage 1: [select_departments] *)

Definition rbind {A B} (r : result A) (k : A -> result B) : result B :=
  match r with
  | Return a => k a
  | Raise e => Raise e
  end.

Notation "x <~ r ;; k" := (rbind r (fun x => k))
  (at level 61, r at next level, right associativity).

(** A list comprehension whose body may raise. *)
Fixpoint map_result {A B} (f : A -> result B) (l : list A) : result (list B) :=
  match l with
  | [] => Return []
  | a :: l' =>
      b <~ f a ;;
      bs <~ map_result f l' ;;
      Return (b :: bs)
  end.

Definition newline : str := [10%N].

(** [f"- {skill[0]}: {skill[1]}"] *)
Definition format_skill (skill : list str) : result str :=
  match skill with
  | name :: level :: _ => Return (lit "- " ++ name ++ lit ": " ++ level)
  | _ => Raise IndexError
  end.

Definition format_skills (skill_levels : list (list str)) : result str :=
  lines <~ map_result format_skill skill_levels ;;
  Return (join newline lines).

Definition str_of_int (z : Z) : str := lit (NilZero.string_of_int (Z.to_int z)).

(** [f"- {dept}: {count} courses"] over the items of the catalog. *)
Definition format_departments (catalog : list (str * Z)) : str :=
  join newline
    (map (fun item =>
            lit "- " ++ fst item ++ lit ": " ++ str_of_int (snd item)
              ++ lit " courses")
         catalog).

(** The comprehension [[dept for dept in departments if dept in
    self.available_departments]] over the items of the parsed reply.
    Testing a list or a dictionary for membership raises (they are not
    hashable); a number, a boolean or [None] is no key of the catalog. *)
Fixpoint valid_departments (departments : list json)
  (catalog : list (str * Z)) : result (list str) :=
  match departments with
  | [] => Return []
  | dept :: rest =>
      match dept with
      | JArray _ | JObject _ => Raise TypeError
      | JString s =>
          valid <~ valid_departments rest catalog ;;
          Return (if dict_has s catalog then s :: valid else valid)
      | _ => valid_departments rest catalog
      end
  end.

(** [if response:] on an optional string. *)
Definition nonempty (response : option str) : option str :=
  match response with
  | Some ((_ :: _) as text) => Some text
  | _ => None
  end.

Definition select_departments (env : Env)
  (advisor_description conversation_transcript : str)
  (skill_levels : list (list str)) : M (list str) :=
  skills_text <- lift (format_skills skill_levels) ;;
  fun st =>
    let departments_text := format_departments (available_departments st) in
    let prompt :=
      DepartmentsPrompt advisor_description conversation_transcript
                        skills_text departments_text in
    try_except
      (response <- call_api env prompt ;;
       match nonempty response with
       | Some response =>
           match Re.search array_pattern response with
           | Some json_match =>
               departments <- lift (json_loads json_match) ;;
               items <- lift (py_iter departments) ;;
               fun st' =>
                 lift (valid <~ valid_departments items
                                  (available_departments st') ;;
                       Return (firstn 3 valid)) st'
           | None => ret []
           end
       | None => ret []
       end)
      (fun _ => ret [])
      st.

(* ================================================================= *)
(** * Stage 2: [select_courses_with_prerequisites] *)

Definition department_path (department : str) : str :=
  lit "departments/" ++ department ++ lit ".json".

(** [_load_department_courses]: whatever [json.load] reads from the
    department's file, and the empty list when the file is missing,
    cannot be read, or is not valid JSON. *)
Definition _load_department_courses (env : Env) (department : str) : json :=
  match files env (department_path department) with
  | Some (FileText content) =>
      match json_loads content with
      | Return courses => courses
      | Raise _ => JArray []
      end
  | Some FileUnreadable => JArray []
  | None => JArray []
  end.

(** [department_courses[:50]]: lists and strings can be sliced.  A
    dictionary raises too ([TypeError], or [KeyError] in the versions of
    Python whose slices are hashable); the two escape alike. *)
Definition first_50 (department_courses : json) : result json :=
  match department_courses with
  | JArray l => Return (JArray (firstn 50 l))
  | JString s => Return (JString (firstn 50 s))
  | _ => Raise TypeError
  end.

Definition course_line (course : json) : result (json * json) :=
  title <~ py_get course (lit "title") (JString (lit "No Title")) ;;
  description <~ py_get course (lit "short_description")
                        (JString (lit "No Description")) ;;
  Return (title, description).

Definition format_courses (department_courses : json)
  : result (list (json * json)) :=
  shown <~ first_50 department_courses ;;
  items <~ py_iter shown ;;
  map_result course_line items.

(** The body of the [try] of one department: the selection that
    [all_selected_courses.extend] appends. *)
Definition ask_courses (env : Env) (prompt : Prompt) : M (list json) :=
  response <- call_api env prompt ;;
  match nonempty response with
  | Some response =>
      match Re.search array_pattern response with
      | Some json_match =>
          courses <- lift (json_loads json_match) ;;
          lift (py_iter courses)
      | None => ret []
      end
  | None => ret []
  end.

(** The loop [for department in selected_departments] with its
    accumulator. *)
Fixpoint courses_loop (env : Env) (selected_departments : list str)
  (advisor_description conversation_transcript skills_text : str)
  (all_selected_courses : list json) : M (list json) :=
  match selected_departments with
  | [] => ret all_selected_courses
  | department :: rest =>
      let department_courses := _load_department_courses env department in
      if negb (truthy department_courses)
      then courses_loop env rest advisor_description conversation_transcript
                        skills_text all_selected_courses
      else
        courses_text <- lift (format_courses department_courses) ;;
        let prompt :=
          CoursesPrompt department advisor_description
                        conversation_transcript skills_text courses_text in
        all_selected_courses <-
          try_except
            (courses <- ask_courses env prompt ;;
             ret (all_selected_courses ++ courses))
            (fun _ => ret all_selected_courses) ;;
        courses_loop env rest advisor_description conversation_transcript
                     skills_text all_selected_courses
  end.

Definition select_courses_with_prerequisites (env : Env)
  (selected_departments : list str)
  (advisor_description conversation_transcript : str)
  (skill_levels : list (list str)) : M (list json) :=
  skills_text <- lift (format_skills skill_levels) ;;
  courses_loop env selected_departments advisor_description
               conversation_transcript skills_text [].

(* ================================================================= *)
(** * Stage 3: [create_learning_roadmap] *)

Definition error_dict (message : str) : json :=
  JObject [(lit "error", JString message)].

(** The four lines written for one course. *)
Definition course_entry (course : json) : result (json * json * json * str) :=
  listed <~ py_get course (lit "prerequisites") (JArray []) ;;
  prereqs <~ py_join (lit ", ") listed ;;
  title <~ py_get course (lit "course_title") (JString (lit "Unknown")) ;;
  department <~ py_get course (lit "department") (JString (lit "Unknown")) ;;
  description <~ py_get course (lit "course_description")
                        (JString (lit "No description")) ;;
  Return (title, department, description,
          match prereqs with [] => lit "None" | _ => prereqs end).

(** [enumerate], counting from [i + 1]. *)
Definition numbered {A} (l : list A) : list (Z * A) :=
  combine (map Z.of_nat (seq 1 (length l))) l.

Definition create_learning_roadmap (env : Env)
  (courses_with_prereqs : list json) (student_profile : option json)
  : M json :=
  match courses_with_prereqs with
  | [] => ret (error_dict (lit "No courses provided for roadmap creation"))
  | _ :: _ =>
      entries <- lift (map_result course_entry courses_with_prereqs) ;;
      let profile_text :=
        match student_profile with
        | Some profile => if truthy profile then Some profile else None
        | None => None
        end in
      let prompt := RoadmapPrompt profile_text (numbered entries) in
      try_except
        (response <- call_api env prompt ;;
         match nonempty response with
         | Some response =>
             match Re.search object_pattern response with
             | Some json_match => lift (json_loads json_match)
             | None => ret (error_dict (lit "Failed to create roadmap"))
             end
         | None => ret (error_dict (lit "Failed to create roadmap"))
         end)
        (fun e =>
           ret (error_dict (lit "Roadmap creation failed: "
                              ++ exception_text env e)))
  end.

(* ================================================================= *)
(** * The corpus partitioner: [split_courses_by_department]

    The grouping loop over the parsed corpus; reading the corpus and
    writing one file per key of the result are at its boundary. *)

(** [departments[name].append(course)] on a [defaultdict(list)]. *)
Definition group_append (name : str) (course : json)
  (departments : list (str * list json)) : list (str * list json) :=
  dict_set name
    (match dict_get name departments with Some l => l | None => [] end
       ++ [course])
    departments.

(** [for dept_name in department_names]: [clean_filename] calls
    [replace] on its argument, a method of strings only. *)
Fixpoint place_in (department_names : list json) (course : json)
  (departments : list (str * list json)) : result (list (str * list json)) :=
  match department_names with
  | [] => Return departments
  | JString dept_name :: rest =>
      place_in rest course
               (group_append (clean_filename dept_name) course departments)
  | _ :: _ => Raise AttributeError
  end.

Definition place_course (course : json)
  (departments : list (str * list json)) : result (list (str * list json)) :=
  department_names <~ py_get course (lit "department_name") (JArray []) ;;
  if negb (truthy department_names)
  then Return (group_append (lit "Others") course departments)
  else
    names <~ py_iter department_names ;;
    place_in names course departments.

Fixpoint group_loop (courses : list json)
  (departments : list (str * list json)) : result (list (str * list json)) :=
  match courses with
  | [] => Return departments
  | course :: rest =>
      departments <~ place_course course departments ;;
      group_loop rest departments
  end.

Definition split_courses_by_department (courses_data : json)
  : result (list (str * list json)) :=
  courses <~ py_iter courses_data ;;
  group_loop courses [].

(** The group of a name; a name that is no key has no members. *)
Definition group (name : str) (departments : list (str * list json))
  : list json :=
  match dict_get name departments with Some l => l | None => [] end.

(* ================================================================= *)
(** * The corpus partitioner: [get_all_departments] *)

(** The order of Python strings: by code point, a proper prefix first. *)
Fixpoint str_ltb (a b : str) : bool :=
  match a, b with
  | _, [] => false
  | [], _ :: _ => true
  | x :: a', y :: b' => (x <? y)%N || ((x =? y)%N && str_ltb a' b')
  end.

Fixpoint insert_sorted (x : str) (l : list str) : list str :=
  match l with
  | [] => [x]
  | y :: l' => if str_ltb y x then y :: insert_sorted x l' else x :: l
  end.

(** [sorted] on strings that differ from one another: there is one
    ascending arrangement, and sorting by insertion finds it. *)
Definition sorted_strs (l : list str) : list str :=
  fold_right insert_sorted [] l.

(** A set of strings, as the list of its members. *)
Definition set_add (x : str) (s : list str) : list str :=
  if existsb (Str.eqb x) s then s else s ++ [x].

Definition set_of (l : list str) : list str :=
  fold_left (fun s x => set_add x s) l [].

(** The strings of a list of strings; [None] when an item is none. *)
Fixpoint only_strings (items : list json) : option (list str) :=
  match items with
  | [] => Some []
  | JString s :: rest => option_map (cons s) (only_strings rest)
  | _ :: _ => None
  end.

(** [departments.update(items)] hashes every item. *)
Fixpoint check_hashable (items : list json) : result (list json) :=
  match items with
  | [] => Return []
  | JArray _ :: _ | JObject _ :: _ => Raise TypeError
  | item :: rest =>
      rest <~ check_hashable rest ;;
      Return (item :: rest)
  end.

(** What one course adds to the set. *)
Definition names_added (course : json) : result (list json) :=
  department_names <~ py_get course (lit "department_name") (JArray []) ;;
  if truthy department_names
  then items <~ py_iter department_names ;; check_hashable items
  else Return [].

Fixpoint collect_names (courses : list json) : result (list json) :=
  match courses with
  | [] => Return []
  | course :: rest =>
      added <~ names_added course ;;
      more <~ collect_names rest ;;
      Return (added ++ more)
  end.

Section GetAllDepartments.

(** [sorted(list(set(items)))] on hashable values that are not all
    strings.  Python orders numbers by value and refuses to order a
    string against a number; what comes out takes the arithmetic of
    floats and the order of the set, and is left open here. *)
Variable sorted_scalars : list json -> result (list json).

Definition sorted_set (items : list json) : result (list json) :=
  match only_strings items with
  | Some names => Return (map JString (sorted_strs (set_of names)))
  | None => sorted_scalars items
  end.

(** [get_all_departments]: only a missing file and a text that is not
    JSON are caught. *)
Definition get_all_departments (env : Env) (input_file_path : str)
  : result (list json) :=
  match files env input_file_path with
  | None => Return []
  | Some FileUnreadable => Raise OSError
  | Some (FileText content) =>
      match json_loads content with
      | Raise (JSONDecodeError _) => Return []
      | Raise e => Raise e
      | Return courses_data =>
          courses <~ py_iter courses_data ;;
          items <~ collect_names courses ;;
          sorted_set items
      end
  end.

End GetAllDepartments.

(* ================================================================= *)
(** * Notions used by the statements *)

(** The spec's reading of the first step: every forbidden character
    becomes an underscore. *)
Definition is_forbidden (c : char) : bool := existsb (N.eqb c) invalid_chars.

Definition forbidden_to_underscore (c : char) : char :=
  if is_forbidden c then underscore else c.

Definition space_to_underscore (c : char) : char :=
  if (c =? space)%N then underscore else c.

(** The spec's reading of the last step: every run of underscores
    becomes a single underscore, and nothing else changes. *)
Fixpoint squeeze (s : str) : str :=
  match s with
  | [] => []
  | a :: rest =>
      match rest with
      | b :: _ =>
          if (a =? underscore)%N && (b =? underscore)%N
          then squeeze rest
          else a :: squeeze rest
      | [] => [a]
      end
  end.


(** The delays before the retries that follow attempts [first],
    [first + 1], ..., [first + n - 1]. *)
Definition backoff (first : Z) (n : nat) : list Z :=
  map (fun i => 2 ^ (first + Z.of_nat i))%Z (seq 0 n).

(** The state after [sent] more requests and the sleeps [delays]. *)
Definition after (st : State) (sent : nat) (delays : list Z) : State :=
  {| available_departments := available_departments st;
     requests := requests st + sent;
     slept := slept st ++ delays |}.

(** A computation that leaves the catalog as it found it. *)
Definition preserves_catalog {A} (m : M A) : Prop :=
  forall st, available_departments (snd (m st)) = available_departments st.

(** A student profile whose skill records are pairs. *)
Definition skills_ok (skill_levels : list (list str)) : Prop :=
  Forall (fun skill => 2 <= length skill) skill_levels.




Definition is_string (v : json) : bool :=
  match v with JString _ => true | _ => false end.

Definition is_object (v : json) : bool :=
  match v with JObject _ => true | _ => false end.

(** What a course record lists under [department_name]. *)
Definition listed_departments (course : json) : result json :=
  py_get course (lit "department_name") (JArray []).

(** A course record of the corpus: a mapping whose [department_name],
    when it is there and not empty, is a sequence of names. *)
Definition record_ok (course : json) : bool :=
  match listed_departments course with
  | Return (JArray names) => forallb is_string names
  | Return v => negb (truthy v)
  | Raise _ => false
  end.

(** The names of the groups a record belongs to. *)
Definition targets (course : json) : list str :=
  match listed_departments course with
  | Return v =>
      if negb (truthy v) then [lit "Others"]
      else match v with
           | JArray names =>
               flat_map (fun name =>
                           match name with
                           | JString dept_name => [clean_filename dept_name]
                           | _ => []
                           end) names
           | _ => []
           end
  | Raise _ => []
  end.

(** A course group as the partitioner writes it: nothing, or a list
    whose first fifty entries are records. *)
Definition group_ok (department_courses : json) : bool :=
  negb (truthy department_courses) ||
  match department_courses with
  | JArray courses => forallb is_object (firstn 50 courses)
  | _ => false
  end.

(** A course selection: a record whose prerequisites, when there are
    any, are a list of titles. *)
Definition course_ok (course : json) : bool :=
  match py_get course (lit "prerequisites") (JArray []) with
  | Return (JArray titles) => forallb is_string titles
  | _ => false
  end.

(** The sanitized names among the items of a [department_name] list. *)
Definition names_of (names : list json) : list str :=
  flat_map (fun name =>
              match name with
              | JString dept_name => [clean_filename dept_name]
              | _ => []
              end) names.


(** ** Invariant of the JSON recogniser *)

(** The open containers rest on an object. *)
Fixpoint bottom_obj (stack : list Json.frame) : bool :=
  match stack with
  | [] => false
  | f :: rest =>
      match rest with
      | [] => match f with Json.FObject _ _ => true | Json.FArray _ => false end
      | _ :: _ => bottom_obj rest
      end
  end.

(** The recogniser is inside an outermost object, or has finished one. *)
Definition rooted (st : Json.pstate) : bool :=
  match st with
  | Json.SValue stack | Json.SArrayStart stack => bottom_obj stack
  | Json.SObjectStart stack | Json.SKey stack _ | Json.SColon stack _ _ =>
      match stack with [] => true | _ :: _ => bottom_obj stack end
  | Json.SAfter v stack =>
      match stack with [] => is_object v | _ :: _ => bottom_obj stack end
  | Json.SError => true
  end.


(** ** Example worlds *)

(** A wording for every exception. *)
Definition sample_text (e : exn) : str := lit "Expecting value".

(** A service that fails twice and then answers. *)
Definition flaky_service (n : nat) (_ : Prompt) : option str :=
  match n with
  | 2 => Some (lit "ok")
  | _ => None
  end.

(** A service whose first answer names Mathematics twice. *)
Definition repeating_env : Env :=
  {| service := fun _ _ =>
       Some (jlit "Here: [`Mathematics`, `Alchemy`, `Mathematics`, `Physics`, `Biology`]");
     files := fun _ => None;
     exception_text := sample_text |}.

(** A corpus with a group for Physics only, and a service that selects
    one course. *)
Definition physics_only_env : Env :=
  {| service := fun _ _ => Some (jlit "[{`course_title`: `Mechanics`}]");
     files := fun path =>
       if Str.eqb path (lit "departments/Physics.json")
       then Some (FileText (jlit "[{`title`: `Mechanics`}]"))
       else None;
     exception_text := sample_text |}.

(** The example of the spec: a record listing A and B, a record with an
    empty list and a record with no list. *)
Definition example_corpus : list json :=
  [ JObject [(lit "title", JString (lit "one"));
             (lit "department_name", JArray [JString (lit "A");
                                             JString (lit "B")])];
    JObject [(lit "title", JString (lit "two"));
             (lit "department_name", JArray [])];
    JObject [(lit "title", JString (lit "three"))] ].

(** A service that answers with prose only, and no corpus. *)
Definition prose_env : Env :=
  {| service := fun _ _ => Some (lit "I cannot decide.");
     files := fun _ => None;
     exception_text := sample_text |}.

(** A corpus with a group for Physics, and a service whose selection
    for it gives a number where the prerequisites belong. *)
Definition careless_env : Env :=
  {| service := fun _ _ =>
       Some (jlit "[{`course_title`: `Mechanics`, `prerequisites`: 5}]");
     files := fun path =>
       if Str.eqb path (lit "departments/Physics.json")
       then Some (FileText (jlit "[{`title`: `Mechanics`}]"))
       else None;
     exception_text := sample_text |}.


(* ================================================================= *)
(** * Further notions used by the statements *)

(** The sum of a list of delays. *)
Definition total (delays : list Z) : Z := fold_right Z.add 0%Z delays.

(** A computation that sends at most [k] requests, and takes none back. *)
Definition sends_at_most {A} (m : M A) (k : nat) : Prop :=
  forall st,
    requests st <= requests (snd (m st)) /\
    requests (snd (m st)) <= requests st + k.

(** Lists and dictionaries are not hashable. *)
Definition unhashable (v : json) : bool :=
  match v with
  | JArray _ | JObject _ => true
  | _ => false
  end.

(** The strings among the items of a list. *)
Definition strings_of (items : list json) : list str :=
  flat_map (fun v => match v with JString s => [s] | _ => [] end) items.

(** The selected departments for which stage 2 asks the model. *)
Definition asked (env : Env) (departments : list str) : list str :=
  filter (fun d => truthy (_load_department_courses env d)) departments.

(** A service that answers no request. *)
Definition down (env : Env) : Prop := forall n prompt, service env n prompt = None.

(** The prompts of stage 1 and of stage 3. *)
Definition departments_prompt (advisor_description conversation_transcript
  skills_text : str) (st : State) : Prompt :=
  DepartmentsPrompt advisor_description conversation_transcript skills_text
                    (format_departments (available_departments st)).

Definition roadmap_prompt (entries : list (json * json * json * str))
  (student_profile : option json) : Prompt :=
  RoadmapPrompt
    match student_profile with
    | Some profile => if truthy profile then Some profile else None
    | None => None
    end
    (numbered entries).

(** A service that is down, with the corpus of [physics_only_env]. *)
Definition down_env : Env :=
  {| service := fun _ _ => None; files := files physics_only_env;
     exception_text := sample_text |}.

(** A service whose reply lists a dictionary among the names. *)
Definition mixed_env : Env :=
  {| service := fun _ _ =>
       Some (jlit "[`Mathematics`, 7, {`name`: `Physics`}, `Biology`]");
     files := fun _ => None;
     exception_text := sample_text |}.

(** A corpus whose only group, for Physics, is the JSON list of the
    given record texts. *)
Definition group_text (records : list str) : str :=
  lit "[" ++ join (lit ",") records ++ lit "]".

Definition env_with_physics (records : list str) : Env :=
  {| service := fun _ _ => Some (jlit "[{`course_title`: `Mechanics`}]");
     files := fun path =>
       if Str.eqb path (lit "departments/Physics.json")
       then Some (FileText (group_text records))
       else None;
     exception_text := sample_text |}.

Definition mechanics_text : str := jlit "{`title`: `Mechanics`}".
Definition optics_text : str := jlit "{`title`: `Optics`}".
Definition mechanics : json := JObject [(lit "title", JString (lit "Mechanics"))].
Definition optics : json := JObject [(lit "title", JString (lit "Optics"))].

(** One round of the collapsing loop. *)
Definition collapse_once : str -> str :=
  replace_from [underscore; underscore] [underscore] 0.

(** A string that neither starts nor ends with whitespace. *)
Definition tight (s : str) : Prop :=
  (forall c rest, s = c :: rest -> isspace c = false) /\
  (forall c front, s = front ++ [c] -> isspace c = false).

(** How often a name occurs in a list of names. *)
Definition occurrences (name : str) (names : list str) : nat :=
  length (filter (Str.eqb name) names).

(** The records on which the grouping loop does not raise: mappings
    whose [department_name] is missing, empty, or something that
    iterates over strings (a list of strings, a string, a dictionary). *)
Definition accepted (course : json) : bool :=
  match listed_departments course with
  | Return v =>
      negb (truthy v) ||
      match py_iter v with
      | Return items => forallb is_string items
      | Raise _ => false
      end
  | Raise _ => false
  end.

(** The names of the groups an accepted record is put into, in the
    order and with the repetitions of its list. *)
Definition group_names (course : json) : list str :=
  match listed_departments course with
  | Return v =>
      if negb (truthy v) then [lit "Others"]
      else match py_iter v with
           | Return items => names_of items
           | Raise _ => []
           end
  | Raise _ => []
  end.

(** A record that gives its department as a plain string. *)
Definition math_record : json :=
  JObject [(lit "title", JString (lit "Algebra"));
           (lit "department_name", JString (lit "Math"))].

(** The dictionary of groups has one entry for a name, and no entry
    without records. *)
Definition well_grouped (departments : list (str * list json)) : Prop :=
  NoDup (keys departments) /\ Forall (fun kv => snd kv <> []) departments.


(** The names a record lists, as [get_all_departments] reads them. *)
Definition raw_names (course : json) : list str :=
  match listed_departments course with
  | Return v =>
      if truthy v
      then match py_iter v with
           | Return items => strings_of items
           | Raise _ => []
           end
      else []
  | Raise _ => []
  end.

(** Strictly ascending. *)
Definition ascending (names : list str) : Prop :=
  Sorted (fun a b => str_ltb a b = true) names.

(** A file system with the example corpus under the name all.json. *)
Definition corpus_env : Env :=
  {| service := fun _ _ => None;
     files := fun path =>
       if Str.eqb path (lit "all.json")
       then Some (FileText
                    (jlit "[{`department_name`: [`Physics`, `Biology`]}, {`department_name`: [`Biology`]}, {`title`: `x`}]"))
       else if Str.eqb path (lit "locked.json") then Some FileUnreadable
       else None;
     exception_text := sample_text |}.

Definition corpus_records : list json :=
  [ JObject [(lit "department_name",
              JArray [JString (lit "Physics"); JString (lit "Biology")])];
    JObject [(lit "department_name", JArray [JString (lit "Biology")])];
    JObject [(lit "title", JString (lit "x"))] ].

(** A record that lists no department. *)
Definition unlisted (course : json) : bool :=
  match listed_departments course with
  | Return v => negb (truthy v)
  | Raise _ => false
  end.

(** ** The spec's reading of a reply

    What each stage is to give back for the reply of the completion
    client: the expected structure when the reply holds one, and the
    stage's failure value otherwise. *)

(** Stage 1: at most three catalog keys out of the array in the
    reply; the empty list when there is no reply, no bracket region, a
    region that is not JSON, or an entry that cannot be looked up. *)
Definition selection_of_reply (catalog : list (str * Z))
  (response : option str) : list str :=
  match nonempty response with
  | None => []
  | Some text =>
      match extract array_pattern text with
      | None => []
      | Some (Raise _) => []
      | Some (Return departments) =>
          match py_iter departments with
          | Raise _ => []
          | Return items =>
              match valid_departments items catalog with
              | Raise _ => []
              | Return valid => firstn 3 valid
              end
          end
      end
  end.

(** Stage 2, one department: the items of the array in the reply; none
    when there is no reply, no bracket region, or a region that is not
    JSON. *)
Definition courses_of_reply (response : option str) : list json :=
  match nonempty response with
  | None => []
  | Some text =>
      match extract array_pattern text with
      | None => []
      | Some (Raise _) => []
      | Some (Return courses) =>
          match py_iter courses with
          | Raise _ => []
          | Return items => items
          end
      end
  end.

(** Stage 2, all departments: the client is called once for every
    department that has courses to show, and what the replies hold is
    concatenated in the order of the departments.  (A group that is not
    a list of records ends the reading; the stage raises on it.) *)
Fixpoint courses_of_replies (env : Env)
  (advisor_description conversation_transcript skills_text : str)
  (departments : list str) (st : State) : list json * State :=
  match departments with
  | [] => ([], st)
  | department :: rest =>
      let department_courses := _load_department_courses env department in
      if negb (truthy department_courses)
      then courses_of_replies env advisor_description conversation_transcript
                              skills_text rest st
      else
        match format_courses department_courses with
        | Raise _ => ([], st)
        | Return courses_text =>
            let reply :=
              _call_claude_api env
                (CoursesPrompt department advisor_description
                               conversation_transcript skills_text
                               courses_text) 3 st in
            let more :=
              courses_of_replies env advisor_description
                                 conversation_transcript skills_text rest
                                 (snd reply) in
            (courses_of_reply (fst reply) ++ fst more, snd more)
        end
  end.

(** Stage 3: the value decoded from the brace region of the reply; an
    error dictionary when there is no reply or no region, and one that
    quotes the exception when the region is not JSON. *)
Definition roadmap_of_reply (env : Env) (response : option str) : json :=
  match nonempty response with
  | None => error_dict (lit "Failed to create roadmap")
  | Some text =>
      match extract object_pattern text with
      | None => error_dict (lit "Failed to create roadmap")
      | Some (Raise e) =>
          error_dict (lit "Roadmap creation failed: " ++ exception_text env e)
      | Some (Return roadmap) => roadmap
      end
  end.

(** A service whose reply has a brace region that is not JSON, with the
    corpus of [physics_only_env]. *)
Definition garbled_env : Env :=
  {| service := fun _ _ => Some (lit "here: {oops} [oops]");
     files := files physics_only_env;
     exception_text := sample_text |}.

(* ================================================================= *)
(** * Properties of strings *)

Module StrFacts.

Lemma eqb_eq (a b : str) : Str.eqb a b = true <-> a = b.
Proof.
  revert b; induction a as [|x a IH]; intros [|y b]; simpl;
    try (split; congruence).
  rewrite andb_true_iff, N.eqb_eq, IH. split.
  - intros [-> ->]; reflexivity.
  - intros E; injection E; auto.
Qed.

Lemma eqb_refl (a : str) : Str.eqb a a = true.
Proof. apply eqb_eq; reflexivity. Qed.

Lemma eqb_neq (a b : str) : Str.eqb a b = false <-> a <> b.
Proof.
  rewrite <- eqb_eq. destruct (Str.eqb a b); split; congruence.
Qed.

Lemma eqb_sym (a b : str) : Str.eqb a b = Str.eqb b a.
Proof.
  destruct (Str.eqb a b) eqn:E; symmetry.
  - apply eqb_eq in E; subst; apply eqb_refl.
  - apply eqb_neq; apply eqb_neq in E; congruence.
Qed.

(** Replacing a single character by a single character is a [map]. *)
Lemma replace_char (a b : char) (s : str) :
  replace [a] [b] s = map (fun c => if (c =? a)%N then b else c) s.
Proof.
  unfold replace. induction s as [|c s IH]; simpl; [reflexivity|].
  rewrite andb_true_r, N.eqb_sym.
  destruct (c =? a)%N; simpl; rewrite IH; reflexivity.
Qed.

(** [replace] brings in no character besides those of the replacement. *)
Lemma In_replace_from (old new : str) (c : char) (s : str) :
  forall skip, In c (replace_from old new skip s) -> In c s \/ In c new.
Proof.
  induction s as [|x s IH]; simpl; intros skip H; [tauto|].
  destruct skip as [|k].
  - destruct (startswith old (x :: s)).
    + apply in_app_or in H as [H|H]; [tauto|].
      apply IH in H; tauto.
    + destruct H as [H|H]; [tauto|]. apply IH in H; tauto.
  - apply IH in H; tauto.
Qed.

Lemma In_lstrip (c : char) (s : str) : In c (lstrip s) -> In c s.
Proof.
  induction s as [|x s IH]; simpl; [tauto|].
  destruct (isspace x); simpl; tauto.
Qed.

Lemma In_strip (c : char) (s : str) : In c (strip s) -> In c s.
Proof.
  unfold strip, rstrip. intros H.
  apply In_lstrip. apply in_rev in H. apply In_lstrip in H.
  apply in_rev in H. exact H.
Qed.

Lemma lstrip_spec (s : str) :
  exists l, s = l ++ lstrip s /\ forallb isspace l = true /\
            (forall c rest, lstrip s = c :: rest -> isspace c = false).
Proof.
  induction s as [|x s [l [E [Hl Hh]]]]; simpl.
  - exists []; repeat split; auto; discriminate.
  - destruct (isspace x) eqn:Hx.
    + exists (x :: l). simpl. rewrite Hx, Hl, <- E. auto.
    + exists []. repeat split; auto.
      intros c rest H; injection H as <- _; exact Hx.
Qed.

Lemma forallb_rev {X} (p : X -> bool) (l : list X) :
  forallb p l = true -> forallb p (rev l) = true.
Proof.
  rewrite !forallb_forall. intros H x Hx. apply H, in_rev, Hx.
Qed.

(** [strip] removes a run of whitespace at either end, and what is
    left neither starts nor ends with whitespace. *)
Lemma strip_spec (s : str) :
  exists l r,
    s = l ++ strip s ++ r /\
    forallb isspace l = true /\ forallb isspace r = true /\
    (forall c rest, strip s = c :: rest -> isspace c = false) /\
    (forall c front, strip s = front ++ [c] -> isspace c = false).
Proof.
  unfold strip, rstrip.
  destruct (lstrip_spec s) as [l [El [Hl Hhead]]].
  destruct (lstrip_spec (rev (lstrip s))) as [r [Er [Hr Hlast]]].
  assert (E : lstrip s = rev (lstrip (rev (lstrip s))) ++ rev r).
  { rewrite <- rev_app_distr, <- Er, rev_involutive. reflexivity. }
  exists l, (rev r). repeat split.
  - rewrite <- E. exact El.
  - exact Hl.
  - apply forallb_rev. exact Hr.
  - intros c rest H. rewrite H in E. simpl in E. apply (Hhead c _ E).
  - intros c front H. apply (Hlast c (rev front)).
    rewrite <- (rev_involutive (lstrip (rev (lstrip s)))), H, rev_app_distr.
    reflexivity.
Qed.

(** The two equations of replacing a doubled underscore. *)
Lemma collapse_step_length (s : str) :
  forall n, length s <= n ->
    length (replace_from [underscore; underscore] [underscore] 0 s) <= length s /\
    (contains [underscore; underscore] s = true ->
     length (replace_from [underscore; underscore] [underscore] 0 s) < length s).
Proof.
  intros n; revert s; induction n as [|n IH]; intros s Hn.
  - destruct s; simpl in *; [|lia]. split; [lia|discriminate].
  - destruct s as [|c s]; [simpl; split; [lia|discriminate]|].
    cbn [replace_from contains].
    destruct (startswith [underscore; underscore] (c :: s)) eqn:E.
    + destruct s as [|d s]; [simpl in E; rewrite andb_false_r in E; discriminate|].
      simpl. destruct (IH s) as [IH1 _]; [simpl in Hn; lia|].
      split; intros; lia.
    + simpl. destruct (IH s) as [IH1 IH2]; [simpl in Hn; lia|].
      split; [lia|]. intros H. apply IH2 in H. lia.
Qed.

Lemma collapse_loop_fixed (fuel : nat) :
  forall s, length s <= fuel ->
    contains [underscore; underscore] (collapse_loop fuel s) = false.
Proof.
  induction fuel as [|fuel IH]; intros s Hn.
  - destruct s; [reflexivity|simpl in Hn; lia].
  - simpl. destruct (contains [underscore; underscore] s) eqn:E; [|exact E].
    apply IH. unfold replace.
    destruct (collapse_step_length s (n := length s)) as [_ H]; [lia|].
    apply H in E. lia.
Qed.

Lemma In_collapse_loop (c : char) (fuel : nat) :
  forall s, In c (collapse_loop fuel s) -> In c s \/ c = underscore.
Proof.
  induction fuel as [|fuel IH]; intros s H; simpl in H; [tauto|].
  destruct (contains [underscore; underscore] s); [|tauto].
  apply IH in H as [H|H]; [|tauto].
  unfold replace in H. apply In_replace_from in H as [H|[H|[]]]; auto.
Qed.

(** ** Collapsing is squeezing *)

Lemma squeeze_cons2 (a b : char) (r : str) :
  squeeze (a :: b :: r)
  = if (a =? underscore)%N && (b =? underscore)%N
    then squeeze (b :: r) else a :: squeeze (b :: r).
Proof. reflexivity. Qed.

Lemma collapse_pair (r : str) :
  replace_from [underscore; underscore] [underscore] 0
               (underscore :: underscore :: r)
  = underscore :: replace_from [underscore; underscore] [underscore] 0 r.
Proof. reflexivity. Qed.

Lemma collapse_other (x : char) (s : str) :
  startswith [underscore; underscore] (x :: s) = false ->
  replace_from [underscore; underscore] [underscore] 0 (x :: s)
  = x :: replace_from [underscore; underscore] [underscore] 0 s.
Proof. intros H. cbn [replace_from]. rewrite H. reflexivity. Qed.

Lemma startswith_pair (x : char) (s : str) :
  startswith [underscore; underscore] (x :: s)
  = (x =? underscore)%N
    && match s with y :: _ => (y =? underscore)%N | [] => false end.
Proof.
  cbn [startswith]. rewrite (N.eqb_sym underscore x).
  destruct s as [|y s]; [reflexivity|].
  cbn [startswith]. rewrite (N.eqb_sym underscore y), andb_true_r.
  reflexivity.
Qed.

(** One round of the loop does not change what squeezing gives, also
    behind a character that came before. *)
Lemma squeeze_collapse_cons (n : nat) :
  forall s, length s <= n ->
  forall c,
    squeeze (c :: replace_from [underscore; underscore] [underscore] 0 s)
    = squeeze (c :: s).
Proof.
  induction n as [|n IH]; intros s Hn c.
  - destruct s; [reflexivity|simpl in Hn; lia].
  - destruct s as [|x s]; [reflexivity|].
    destruct (startswith [underscore; underscore] (x :: s)) eqn:E.
    + rewrite startswith_pair in E. apply andb_true_iff in E as [Ex Ey].
      destruct s as [|y r]; [discriminate Ey|].
      apply N.eqb_eq in Ex, Ey. subst x y.
      rewrite collapse_pair.
      rewrite (squeeze_cons2 c underscore), (squeeze_cons2 c underscore).
      rewrite (IH r) by (simpl in Hn; lia).
      rewrite (squeeze_cons2 underscore underscore r), N.eqb_refl.
      cbn [andb]. reflexivity.
    + rewrite (collapse_other _ _ E).
      rewrite (squeeze_cons2 c x), (squeeze_cons2 c x).
      rewrite (IH s) by (simpl in Hn; lia). reflexivity.
Qed.

Lemma squeeze_collapse (s : str) :
  squeeze (replace_from [underscore; underscore] [underscore] 0 s)
  = squeeze s.
Proof.
  destruct s as [|x s]; [reflexivity|].
  destruct (startswith [underscore; underscore] (x :: s)) eqn:E.
  - rewrite startswith_pair in E. apply andb_true_iff in E as [Ex Ey].
    destruct s as [|y r]; [discriminate Ey|].
    apply N.eqb_eq in Ex, Ey. subst x y.
    rewrite collapse_pair.
    rewrite (squeeze_collapse_cons (n := length r)) by lia.
    rewrite (squeeze_cons2 underscore underscore r).
    rewrite N.eqb_refl. reflexivity.
  - rewrite (collapse_other _ _ E).
    apply (squeeze_collapse_cons (n := length s)). lia.
Qed.

Lemma squeeze_fixed (s : str) :
  contains [underscore; underscore] s = false -> squeeze s = s.
Proof.
  induction s as [|x s IH]; [reflexivity|].
  cbn [contains]. rewrite startswith_pair. intros H.
  apply orb_false_iff in H as [H1 H2].
  destruct s as [|y r]; [reflexivity|].
  rewrite squeeze_cons2, H1, (IH H2). reflexivity.
Qed.

(** The loop, run for as many rounds as the string is long, squeezes. *)
Lemma collapse_loop_squeeze (fuel : nat) :
  forall s, length s <= fuel -> collapse_loop fuel s = squeeze s.
Proof.
  induction fuel as [|fuel IH]; intros s Hn.
  - destruct s; [reflexivity|simpl in Hn; lia].
  - cbn [collapse_loop].
    destruct (contains [underscore; underscore] s) eqn:E.
    + unfold replace. rewrite IH, squeeze_collapse; [reflexivity|].
      destruct (collapse_step_length s (n := length s)) as [_ H]; [lia|].
      apply H in E. lia.
    + symmetry. apply squeeze_fixed. exact E.
Qed.

End StrFacts.

(* ================================================================= *)
(** * Sanitization *)

Lemma replace_invalid_chars (filename : str) :
  fold_left (fun filename char => replace [char] [underscore] filename)
            invalid_chars filename
  = map forbidden_to_underscore filename.
Proof.
  unfold invalid_chars. cbn [fold_left].
  rewrite !StrFacts.replace_char, !map_map.
  apply map_ext. intros c.
  unfold forbidden_to_underscore, is_forbidden, invalid_chars, underscore.
  cbn [existsb].
  repeat match goal with
         | |- context [(c =? ?k)%N] =>
             destruct (N.eqb_spec c k) as [->|?]; cbn
         end; reflexivity.
Qed.

Lemma forbidden_to_underscore_safe (c : char) :
  is_forbidden (forbidden_to_underscore c) = false.
Proof.
  unfold forbidden_to_underscore.
  destruct (is_forbidden c) eqn:E; [reflexivity|exact E].
Qed.

Lemma is_forbidden_In (c : char) : is_forbidden c = true <-> In c invalid_chars.
Proof.
  unfold is_forbidden. rewrite existsb_exists. split.
  - intros [x [Hx E]]. apply N.eqb_eq in E; subst; exact Hx.
  - intros H. exists c. split; [exact H|apply N.eqb_refl].
Qed.

(** C7. [clean_filename] turns each forbidden character into an
    underscore, trims surrounding whitespace, turns spaces into
    underscores and collapses every run of underscores into one: its
    output holds no forbidden character and no doubled underscore, and
    the name C/D:E becomes C_D_E. *)
Theorem clean_filename_sanitizes (filename : str) :
  (let replaced := map forbidden_to_underscore filename in
   clean_filename filename
   = squeeze (map space_to_underscore (strip replaced)) /\
   exists l r,
     replaced = l ++ strip replaced ++ r /\
     forallb isspace l = true /\ forallb isspace r = true /\
     (forall c rest, strip replaced = c :: rest -> isspace c = false) /\
     (forall c front, strip replaced = front ++ [c] -> isspace c = false)) /\
  (forall c, In c invalid_chars -> ~ In c (clean_filename filename)) /\
  contains [underscore; underscore] (clean_filename filename) = false /\
  clean_filename (lit "C/D:E") = lit "C_D_E".
Proof.
  assert (E : clean_filename filename =
              collapse_loop
                (length (map space_to_underscore
                           (strip (map forbidden_to_underscore filename))))
                (map space_to_underscore
                     (strip (map forbidden_to_underscore filename)))).
  { unfold clean_filename. rewrite replace_invalid_chars.
    rewrite StrFacts.replace_char. reflexivity. }
  split; [split; [|apply StrFacts.strip_spec]|].
  { rewrite E. apply StrFacts.collapse_loop_squeeze. lia. }
  split; [|split].
  - intros c Hc Hin. rewrite E in Hin.
    apply StrFacts.In_collapse_loop in Hin as [Hin| ->].
    + apply in_map_iff in Hin as [x [Hx Hin]].
      apply StrFacts.In_strip in Hin.
      apply in_map_iff in Hin as [y [Hy _]].
      apply is_forbidden_In in Hc.
      unfold space_to_underscore in Hx.
      destruct (x =? space)%N.
      * subst c. discriminate Hc.
      * subst c x. rewrite forbidden_to_underscore_safe in Hc. discriminate.
    + apply is_forbidden_In in Hc. discriminate Hc.
  - rewrite E. apply StrFacts.collapse_loop_fixed. lia.
  - reflexivity.
Qed.

(* ================================================================= *)
(** * The completion client *)

Section Client.

Variable env : Env.
Variable prompt : Prompt.
Variable max_retries : Z.

Lemma backoff_S (first : Z) (n : nat) :
  backoff first (S n) = (2 ^ first)%Z :: backoff (first + 1) n.
Proof.
  unfold backoff. cbn [seq map]. rewrite Z.add_0_r. f_equal.
  rewrite <- seq_shift, map_map. apply map_ext. intros i.
  f_equal. lia.
Qed.

Lemma after_0 (st : State) : after st 0 [] = st.
Proof.
  destruct st; unfold after; simpl. rewrite Nat.add_0_r, app_nil_r.
  reflexivity.
Qed.

(** When the service keeps failing, the loop uses up its iterations,
    sleeping after each attempt but the last. *)
Lemma attempts_all_fail (todo : nat) :
  forall attempt st,
    (Z.of_nat todo + attempt = max_retries)%Z ->
    (forall i, i < todo -> service env (requests st + i) prompt = None) ->
    attempts env prompt max_retries todo attempt st
    = (None, after st todo (backoff attempt (pred todo))).
Proof.
  induction todo as [|todo IH]; intros attempt st Hmax Hfail.
  - simpl. rewrite after_0. reflexivity.
  - cbn [attempts]. unfold messages_create.
    rewrite <- (Nat.add_0_r (requests st)) at 1.
    rewrite Hfail by lia.
    destruct todo as [|todo].
    + replace (attempt <? max_retries - 1)%Z with false
        by (symmetry; apply Z.ltb_ge; lia).
      unfold after; simpl. rewrite app_nil_r, Nat.add_1_r. reflexivity.
    + replace (attempt <? max_retries - 1)%Z with true
        by (symmetry; apply Z.ltb_lt; lia).
      rewrite IH.
      * unfold after, sleep; simpl. rewrite backoff_S, <- app_assoc.
        repeat f_equal. lia.
      * lia.
      * intros i Hi. unfold sleep; simpl.
        replace (S (requests st + i)) with (requests st + S i) by lia.
        apply Hfail. lia.
Qed.

(** When the service fails [k] times and then answers, the answer is
    returned after [k] sleeps. *)
Lemma attempts_then_success (k : nat) (text : str) :
  forall todo attempt st,
    k < todo ->
    (Z.of_nat todo + attempt = max_retries)%Z ->
    (forall i, i < k -> service env (requests st + i) prompt = None) ->
    service env (requests st + k) prompt = Some text ->
    attempts env prompt max_retries todo attempt st
    = (Some text, after st (S k) (backoff attempt k)).
Proof.
  induction k as [|k IH]; intros todo attempt st Hk Hmax Hfail Hok.
  - destruct todo as [|todo]; [lia|].
    cbn [attempts]. unfold messages_create.
    rewrite Nat.add_0_r in Hok. rewrite Hok.
    unfold after; simpl. rewrite app_nil_r, Nat.add_1_r. reflexivity.
  - destruct todo as [|todo]; [lia|].
    cbn [attempts]. unfold messages_create.
    rewrite <- (Nat.add_0_r (requests st)) at 1.
    rewrite Hfail by lia.
    replace (attempt <? max_retries - 1)%Z with true
      by (symmetry; apply Z.ltb_lt; lia).
    rewrite (IH todo).
    + unfold after, sleep; simpl. rewrite backoff_S, <- app_assoc.
      repeat f_equal. lia.
    + lia.
    + lia.
    + intros i Hi. unfold sleep; simpl.
      replace (S (requests st + i)) with (requests st + S i) by lia.
      apply Hfail. lia.
    + unfold sleep; simpl.
      replace (S (requests st + k)) with (requests st + S k) by lia.
      exact Hok.
Qed.

Lemma backoff_increasing (n : nat) :
  forall first, (0 <= first)%Z -> Sorted Z.lt (backoff first n).
Proof.
  induction n as [|n IH]; intros first Hf.
  - constructor.
  - rewrite backoff_S. constructor.
    + apply IH. lia.
    + destruct n as [|n]; [constructor|].
      rewrite backoff_S. constructor.
      apply Z.pow_lt_mono_r; lia.
Qed.

Lemma attempts_catalog (todo : nat) :
  forall attempt st,
    available_departments
      (snd (attempts env prompt max_retries todo attempt st))
    = available_departments st.
Proof.
  induction todo as [|todo IH]; intros attempt st; [reflexivity|].
  cbn [attempts]. unfold messages_create.
  destruct (service env (requests st) prompt); [reflexivity|].
  destruct (attempt <? max_retries - 1)%Z; [|reflexivity].
  rewrite IH. reflexivity.
Qed.

End Client.

(** C3. If the service fails the first [k < max_retries] times and then
    answers, [_call_claude_api] returns the answer; if every attempt
    fails it returns [None] after exactly [max_retries] requests, without
    raising.  Between consecutive attempts it sleeps 2^attempt, and the
    delays are strictly increasing. *)
Theorem call_claude_api_retries (env : Env) (prompt : Prompt)
  (max_retries : Z) (st : State) :
  (forall (k : nat) (text : str),
      (Z.of_nat k < max_retries)%Z ->
      (forall i, i < k -> service env (requests st + i) prompt = None) ->
      service env (requests st + k) prompt = Some text ->
      _call_claude_api env prompt max_retries st
      = (Some text, after st (S k) (backoff 0 k))) /\
  ((forall i, i < Z.to_nat max_retries ->
              service env (requests st + i) prompt = None) ->
   _call_claude_api env prompt max_retries st
   = (None, after st (Z.to_nat max_retries)
                  (backoff 0 (pred (Z.to_nat max_retries))))) /\
  (forall n, Sorted Z.lt (backoff 0 n)).
Proof.
  split; [|split].
  - intros k text Hk Hfail Hok. unfold _call_claude_api.
    apply attempts_then_success; auto; lia.
  - intros Hfail. unfold _call_claude_api.
    destruct (Z.to_nat max_retries) eqn:E.
    + simpl. rewrite after_0. reflexivity.
    + apply attempts_all_fail; auto. lia.
  - intros n. apply backoff_increasing. lia.
Qed.

Lemma call_claude_api_retries_witness :
  _call_claude_api {| service := flaky_service; files := fun _ => None;
                      exception_text := sample_text |}
                   (RoadmapPrompt None []) 3 init
  = (Some (lit "ok"), after init 3 [1; 2]%Z) /\
  _call_claude_api {| service := fun _ _ => None; files := fun _ => None;
                      exception_text := sample_text |}
                   (RoadmapPrompt None []) 3 init
  = (None, after init 3 [1; 2]%Z).
Proof.
  split.
  - apply (proj1 (call_claude_api_retries
                    {| service := flaky_service; files := fun _ => None;
                       exception_text := sample_text |}
                    (RoadmapPrompt None []) 3 init) 2 (lit "ok")).
    + lia.
    + intros [|[|i]] Hi; [reflexivity|reflexivity|lia].
    + reflexivity.
  - apply (proj1 (proj2 (call_claude_api_retries
                    {| service := fun _ _ => None; files := fun _ => None;
                       exception_text := sample_text |}
                    (RoadmapPrompt None []) 3 init))).
    intros i _. reflexivity.
Defined.

(* ================================================================= *)
(** * The catalog is only read *)

Section Frame.

Context {A B : Type}.

Lemma preserves_ret (a : A) : preserves_catalog (ret a).
Proof. intros st; reflexivity. Qed.

Lemma preserves_raise (e : exn) : preserves_catalog (@raise A e).
Proof. intros st; reflexivity. Qed.

Lemma preserves_lift (r : result A) : preserves_catalog (lift r).
Proof. intros st; reflexivity. Qed.

Lemma preserves_bind (m : M A) (k : A -> M B) :
  preserves_catalog m -> (forall a, preserves_catalog (k a)) ->
  preserves_catalog (bind m k).
Proof.
  intros Hm Hk st. unfold bind. specialize (Hm st).
  destruct (m st) as [[a|e] st']; simpl in *.
  - rewrite Hk. exact Hm.
  - exact Hm.
Qed.

Lemma preserves_try_except (m : M A) (handler : exn -> M A) :
  preserves_catalog m -> (forall e, preserves_catalog (handler e)) ->
  preserves_catalog (try_except m handler).
Proof.
  intros Hm Hh st. unfold try_except. specialize (Hm st).
  destruct (m st) as [[a|e] st']; simpl in *.
  - exact Hm.
  - rewrite Hh. exact Hm.
Qed.

End Frame.

Lemma preserves_call_api (env : Env) (prompt : Prompt) :
  preserves_catalog (call_api env prompt).
Proof.
  intros st. unfold call_api, _call_claude_api.
  pose proof (attempts_catalog env prompt 3 (Z.to_nat 3) 0%Z st) as H.
  destruct (attempts env prompt 3 (Z.to_nat 3) 0 st); exact H.
Qed.

Create HintDb frame.
#[local] Hint Resolve preserves_ret preserves_raise preserves_lift
  preserves_call_api : frame.

Ltac frame :=
  repeat first
    [ solve [auto with frame]
    | apply preserves_bind; [|intros ?]
    | apply preserves_try_except; [|intros ?]
    | match goal with
      | |- preserves_catalog (match ?x with _ => _ end) => destruct x
      | |- preserves_catalog (if ?x then _ else _) => destruct x
      end
    | solve [intros ?; reflexivity] ].

Lemma select_departments_catalog (env : Env)
  (advisor_description conversation_transcript : str)
  (skill_levels : list (list str)) :
  preserves_catalog
    (select_departments env advisor_description conversation_transcript
                        skill_levels).
Proof.
  unfold select_departments. apply preserves_bind; [frame|].
  intros skills_text st.
  apply preserves_try_except; frame.
Qed.

Lemma ask_courses_catalog (env : Env) (prompt : Prompt) :
  preserves_catalog (ask_courses env prompt).
Proof. unfold ask_courses. frame. Qed.

Lemma courses_loop_catalog (env : Env) (advisor transcript skills_text : str)
  (selected_departments : list str) :
  forall acc,
    preserves_catalog
      (courses_loop env selected_departments advisor transcript skills_text
                    acc).
Proof.
  induction selected_departments as [|department rest IH]; intros acc;
    cbn [courses_loop]; [frame|].
  destruct (negb (truthy (_load_department_courses env department)));
    [apply IH|].
  apply preserves_bind; [frame|]. intros courses_text.
  apply preserves_bind; [|intros acc'; apply IH].
  apply preserves_try_except; [|frame].
  apply preserves_bind; [apply ask_courses_catalog|frame].
Qed.

Lemma select_courses_catalog (env : Env) (selected_departments : list str)
  (advisor transcript : str) (skill_levels : list (list str)) :
  preserves_catalog
    (select_courses_with_prerequisites env selected_departments advisor
                                       transcript skill_levels).
Proof.
  unfold select_courses_with_prerequisites.
  apply preserves_bind; [frame|]. intros skills_text.
  apply courses_loop_catalog.
Qed.

Lemma create_learning_roadmap_catalog (env : Env)
  (courses_with_prereqs : list json) (student_profile : option json) :
  preserves_catalog
    (create_learning_roadmap env courses_with_prereqs student_profile).
Proof.
  unfold create_learning_roadmap.
  destruct courses_with_prereqs; frame.
Qed.

(** C9. No stage of the pipeline changes the department catalog: after
    every call it is the mapping it was before. *)
Theorem catalog_not_mutated (env : Env) (st : State)
  (advisor_description conversation_transcript : str)
  (skill_levels : list (list str)) (selected_departments : list str)
  (courses_with_prereqs : list json) (student_profile : option json) :
  available_departments
    (snd (select_departments env advisor_description conversation_transcript
                             skill_levels st))
  = available_departments st /\
  available_departments
    (snd (select_courses_with_prerequisites
            env selected_departments advisor_description
            conversation_transcript skill_levels st))
  = available_departments st /\
  available_departments
    (snd (create_learning_roadmap env courses_with_prereqs student_profile st))
  = available_departments st.
Proof.
  split; [|split].
  - apply select_departments_catalog.
  - apply select_courses_catalog.
  - apply create_learning_roadmap_catalog.
Qed.

(** C4. Given no course at all, [create_learning_roadmap] returns its
    error result at once: the state is untouched, so no request has
    been sent to the completion service. *)
Theorem roadmap_of_no_courses (env : Env) (student_profile : option json)
  (st : State) :
  create_learning_roadmap env [] student_profile st
  = (Return (error_dict (lit "No courses provided for roadmap creation")), st)
  /\ requests (snd (create_learning_roadmap env [] student_profile st))
     = requests st.
Proof. split; reflexivity. Qed.

(* ================================================================= *)
(** * Stage 1 *)

Lemma format_skills_ok (skill_levels : list (list str)) :
  skills_ok skill_levels -> exists text, format_skills skill_levels = Return text.
Proof.
  unfold format_skills.
  assert (H : skills_ok skill_levels ->
              exists lines, map_result format_skill skill_levels = Return lines).
  { induction 1 as [|skill rest Hs _ [lines IH]]; simpl; [eauto|].
    destruct skill as [|name [|level more]]; simpl in Hs; try lia.
    simpl. rewrite IH. simpl. eauto. }
  intros Hok. destruct (H Hok) as [lines ->]. simpl. eauto.
Qed.

Lemma format_skills_raise (skill_levels : list (list str)) (e : exn) :
  format_skills skill_levels = Raise e ->
  e = IndexError /\ ~ skills_ok skill_levels.
Proof.
  intros H. split.
  - unfold format_skills in H.
    destruct (map_result format_skill skill_levels) eqn:E;
      simpl in H; [discriminate|].
    injection H as <-. clear - E.
    induction skill_levels as [|skill rest IH]; simpl in E; [discriminate|].
    destruct skill as [|name [|level more]]; simpl in E;
      try (injection E; auto; fail).
    destruct (map_result format_skill rest); simpl in E;
      [discriminate|]. injection E as <-. auto.
  - intros Hok. apply format_skills_ok in Hok as [text Ht]. congruence.
Qed.

Lemma dict_has_keys {V} (k : str) (d : list (str * V)) :
  dict_has k d = true -> In k (keys d).
Proof.
  unfold dict_has. induction d as [|[k' v] d IH]; simpl; [discriminate|].
  destruct (Str.eqb k k') eqn:E.
  - apply StrFacts.eqb_eq in E. auto.
  - auto.
Qed.

Lemma valid_departments_keys (catalog : list (str * Z)) (items : list json) :
  forall valid, valid_departments items catalog = Return valid ->
                Forall (fun d => In d (keys catalog)) valid.
Proof.
  induction items as [|dept rest IH]; simpl; intros valid H.
  - injection H as <-. constructor.
  - destruct dept; try (apply IH; exact H); try discriminate.
    destruct (valid_departments rest catalog) as [l|]; simpl in H;
      [|discriminate].
    injection H as <-. specialize (IH l eq_refl).
    destruct (dict_has s catalog) eqn:E; [|exact IH].
    constructor; [apply dict_has_keys; exact E|exact IH].
Qed.

(** On a list of strings the comprehension is a [filter]. *)
Lemma valid_departments_strings (catalog : list (str * Z)) (names : list str) :
  valid_departments (map JString names) catalog
  = Return (filter (fun d => dict_has d catalog) names).
Proof.
  induction names as [|d names IH]; simpl; [reflexivity|].
  rewrite IH. simpl. destruct (dict_has d catalog); reflexivity.
Qed.

Lemma Forall_firstn {X} (P : X -> Prop) (n : nat) :
  forall l, Forall P l -> Forall P (firstn n l).
Proof.
  induction n as [|n IH]; intros l H; [constructor|].
  destruct H; simpl; constructor; auto.
Qed.

Lemma call_api_catalog (env : Env) (prompt : Prompt) (st : State) :
  available_departments (snd (_call_claude_api env prompt 3 st))
  = available_departments st.
Proof. apply attempts_catalog. Qed.

(** What a call of stage 1 can do: raise on a malformed skill record
    before any request, or return a list. *)
Lemma select_departments_cases (env : Env)
  (advisor_description conversation_transcript : str)
  (skill_levels : list (list str)) (st : State) :
  (exists e, format_skills skill_levels = Raise e /\
             select_departments env advisor_description
               conversation_transcript skill_levels st = (Raise e, st)) \/
  (exists selected st',
      select_departments env advisor_description conversation_transcript
                         skill_levels st = (Return selected, st') /\
      length selected <= 3 /\
      Forall (fun d => In d (keys (available_departments st))) selected).
Proof.
  unfold select_departments, bind, lift.
  destruct (format_skills skill_levels) as [skills_text|e]; [right|left; eauto].
  unfold try_except, bind, call_api, ret.
  pose proof (call_api_catalog env
                (DepartmentsPrompt advisor_description conversation_transcript
                   skills_text (format_departments (available_departments st)))
                st) as Hcat.
  destruct (_call_claude_api env _ 3 st) as [response st1]. simpl in Hcat.
  assert (Hnil : length (@nil str) <= 3 /\
                 Forall (fun d => In d (keys (available_departments st))) [])
    by (split; [simpl; lia|constructor]).
  destruct (nonempty response) as [text|]; [|eauto].
  destruct (Re.search array_pattern text) as [json_match|]; [|eauto].
  unfold lift. destruct (json_loads json_match) as [departments|]; [|eauto].
  destruct (py_iter departments) as [items|]; [|eauto].
  destruct (valid_departments items (available_departments st1)) as [valid|]
    eqn:V; simpl; [|eauto].
  exists (firstn 3 valid), st1. split; [reflexivity|]. split.
  - apply firstn_le_length.
  - apply Forall_firstn. rewrite <- Hcat.
    apply valid_departments_keys with (items := items). exact V.
Qed.

(** C2. Whatever the model replies, every name in the list returned by
    [select_departments] is a key of the catalog and the list has at most
    three entries; names that are not in the catalog are dropped without
    an error.  (The only exception the stage lets through comes from a
    skill record that is not a pair, before the model is asked.) *)
Theorem select_departments_postcondition (env : Env)
  (advisor_description conversation_transcript : str)
  (skill_levels : list (list str)) (st : State) :
  match fst (select_departments env advisor_description
               conversation_transcript skill_levels st) with
  | Return selected =>
      length selected <= 3 /\
      Forall (fun d => In d (keys (available_departments st))) selected
  | Raise e => e = IndexError /\ ~ skills_ok skill_levels
  end.
Proof.
  destruct (select_departments_cases env advisor_description
              conversation_transcript skill_levels st)
    as [[e [He ->]]|[selected [st' [-> H]]]]; simpl.
  - apply format_skills_raise. exact He.
  - exact H.
Qed.

Lemma search_array_empty : Re.search array_pattern [] = None.
Proof. reflexivity. Qed.

(** C10. [select_departments] does not deduplicate: when the parsed
    reply is an array of strings, the result is the first three (or
    fewer) of its entries that are catalog keys, in the reply's order and
    with the reply's repetitions. *)
Theorem select_departments_keeps_duplicates (env : Env)
  (advisor_description conversation_transcript : str)
  (skill_levels : list (list str)) (st : State)
  (skills_text response json_match : str) (names : list str) :
  format_skills skill_levels = Return skills_text ->
  fst (_call_claude_api env
         (DepartmentsPrompt advisor_description conversation_transcript
            skills_text (format_departments (available_departments st)))
         3 st) = Some response ->
  Re.search array_pattern response = Some json_match ->
  json_loads json_match = Return (JArray (map JString names)) ->
  fst (select_departments env advisor_description conversation_transcript
                          skill_levels st)
  = Return (firstn 3 (filter (fun d => dict_has d (available_departments st))
                             names)).
Proof.
  intros Hskills Hcall Hsearch Hloads.
  unfold select_departments, bind, lift. rewrite Hskills.
  unfold try_except, bind, call_api, ret.
  pose proof (call_api_catalog env
                (DepartmentsPrompt advisor_description conversation_transcript
                   skills_text (format_departments (available_departments st)))
                st) as Hcat.
  destruct (_call_claude_api env _ 3 st) as [r st1]. simpl in Hcall, Hcat.
  subst r.
  destruct response as [|c response]; [discriminate Hsearch|].
  unfold nonempty. rewrite Hsearch. unfold lift. rewrite Hloads.
  cbn [py_iter]. rewrite valid_departments_strings, Hcat. reflexivity.
Qed.

Lemma select_departments_keeps_duplicates_witness :
  fst (select_departments repeating_env [] [] [] init)
  = Return [lit "Mathematics"; lit "Mathematics"; lit "Physics"].
Proof.
  refine (@select_departments_keeps_duplicates
            repeating_env [] [] [] init []
            (jlit "Here: [`Mathematics`, `Alchemy`, `Mathematics`, `Physics`, `Biology`]")
            (jlit "[`Mathematics`, `Alchemy`, `Mathematics`, `Physics`, `Biology`]")
            [lit "Mathematics"; lit "Alchemy"; lit "Mathematics";
             lit "Physics"; lit "Biology"] _ _ _ _);
    vm_compute; reflexivity.
Defined.

(* ================================================================= *)
(** * The extraction patterns *)

Module ReFacts.

Import Re.

Lemma match_lit (c x : char) (p : list atom) (s : str) :
  match_here (Lit c :: p) (x :: s)
  = if (x =? c)%N then option_map (cons x) (match_here p s) else None.
Proof. reflexivity. Qed.

Lemma match_lazy (p : list atom) (s : str) :
  match_here (DotStarLazy :: p) s
  = match match_here p s with
    | Some m => Some m
    | None =>
        match s with
        | x :: s' => option_map (cons x) (match_here (DotStarLazy :: p) s')
        | [] => None
        end
    end.
Proof. destruct s; reflexivity. Qed.

Lemma match_greedy (p : list atom) (s : str) :
  match_here (DotStarGreedy :: p) s
  = match s with
    | x :: s' =>
        match match_here (DotStarGreedy :: p) s' with
        | Some m => Some (x :: m)
        | None => match_here p s
        end
    | [] => match_here p []
    end.
Proof. destruct s; reflexivity. Qed.

Lemma search_eq (p : list atom) (s : str) :
  search p s
  = match match_here p s with
    | Some m => Some m
    | None => match s with _ :: s' => search p s' | [] => None end
    end.
Proof. destruct s; reflexivity. Qed.

(** The lazy star stops at the first closing character. *)
Lemma lazy_to_first (c : char) (inner rest : str) :
  ~ In c inner ->
  match_here [DotStarLazy; Lit c] (inner ++ c :: rest) = Some (inner ++ [c]).
Proof.
  induction inner as [|x inner IH]; intros Hin; cbn [app];
    rewrite match_lazy.
  - rewrite match_lit, N.eqb_refl. reflexivity.
  - rewrite match_lit.
    destruct (N.eqb_spec x c) as [->|_]; [exfalso; apply Hin; left; reflexivity|].
    rewrite IH by (intros H; apply Hin; right; exact H). reflexivity.
Qed.

(** The greedy star runs to the last closing character. *)
Lemma greedy_none (c : char) (rest : str) :
  ~ In c rest -> match_here [DotStarGreedy; Lit c] rest = None.
Proof.
  induction rest as [|x rest IH]; intros Hin; rewrite match_greedy.
  - reflexivity.
  - rewrite IH by (intros H; apply Hin; right; exact H).
    rewrite match_lit.
    destruct (N.eqb_spec x c) as [->|_]; [exfalso; apply Hin; left; reflexivity|].
    reflexivity.
Qed.

Lemma greedy_to_last (c : char) (inner rest : str) :
  ~ In c rest ->
  match_here [DotStarGreedy; Lit c] (inner ++ c :: rest) = Some (inner ++ [c]).
Proof.
  intros Hin. induction inner as [|x inner IH]; cbn [app];
    rewrite match_greedy.
  - rewrite greedy_none by exact Hin.
    rewrite match_lit, N.eqb_refl. reflexivity.
  - rewrite IH. reflexivity.
Qed.

(** The search starts at the first opening character. *)
Lemma search_skips (c : char) (p : list atom) (before rest : str) :
  ~ In c before ->
  search (Lit c :: p) (before ++ rest) = search (Lit c :: p) rest.
Proof.
  induction before as [|x before IH]; intros Hin; [reflexivity|].
  cbn [app]. rewrite search_eq, match_lit.
  destruct (N.eqb_spec x c) as [->|_]; [exfalso; apply Hin; left; reflexivity|].
  apply IH. intros H; apply Hin; right; exact H.
Qed.

Lemma search_array (before inner rest : str) :
  ~ In lbracket before -> ~ In rbracket inner ->
  search array_pattern (before ++ lbracket :: inner ++ rbracket :: rest)
  = Some (lbracket :: inner ++ [rbracket]).
Proof.
  intros Hb Hi. unfold array_pattern.
  rewrite search_skips by exact Hb.
  rewrite search_eq, match_lit, N.eqb_refl.
  rewrite lazy_to_first by exact Hi. reflexivity.
Qed.

Lemma search_object (before inner rest : str) :
  ~ In lbrace before -> ~ In rbrace rest ->
  search object_pattern (before ++ lbrace :: inner ++ rbrace :: rest)
  = Some (lbrace :: inner ++ [rbrace]).
Proof.
  intros Hb Hr. unfold object_pattern.
  rewrite search_skips by exact Hb.
  rewrite search_eq, match_lit, N.eqb_refl.
  rewrite greedy_to_last by exact Hr. reflexivity.
Qed.

(** Whatever a pattern that opens with a literal matches opens with it. *)
Lemma search_head (c : char) (p : list atom) (s m : str) :
  search (Lit c :: p) s = Some m -> exists m', m = c :: m'.
Proof.
  induction s as [|x s IH]; intros H; [discriminate H|].
  rewrite search_eq, match_lit in H.
  destruct (N.eqb_spec x c) as [->|_]; [|apply IH; exact H].
  destruct (match_here p s) as [m'|]; simpl in H; [|apply IH; exact H].
  injection H as <-. eauto.
Qed.

End ReFacts.

Lemma app_middle (before inner rest : str) (o c : char) :
  before ++ (o :: inner ++ [c]) ++ rest = before ++ o :: inner ++ c :: rest.
Proof. simpl. rewrite <- app_assoc. reflexivity. Qed.

(** C1, as amended.  A JSON array text without a closing bracket before
    its last character, set in prose with no opening bracket before it,
    is located and parsed by the extraction step of stages 1 and 2; a
    JSON object text set in prose with no opening brace before it and
    no closing brace after it is located and parsed by the extraction
    step of stage 3.  In both cases the step yields the embedded value. *)
Theorem extract_recovers_embedded (before inner rest : str) (v : json) :
  (json_loads (lbracket :: inner ++ [rbracket]) = Return v ->
   ~ In lbracket before -> ~ In rbracket inner ->
   extract array_pattern (before ++ (lbracket :: inner ++ [rbracket]) ++ rest)
   = Some (Return v)) /\
  (json_loads (lbrace :: inner ++ [rbrace]) = Return v ->
   ~ In lbrace before -> ~ In rbrace rest ->
   extract object_pattern (before ++ (lbrace :: inner ++ [rbrace]) ++ rest)
   = Some (Return v)).
Proof.
  split; intros Hv Hb Hc; unfold extract; rewrite app_middle.
  - rewrite ReFacts.search_array by assumption. simpl. rewrite Hv. reflexivity.
  - rewrite ReFacts.search_object by assumption. simpl. rewrite Hv. reflexivity.
Qed.

Lemma not_in_dec (c : char) (s : str) :
  existsb (N.eqb c) s = false -> ~ In c s.
Proof.
  intros H Hin. assert (E : existsb (N.eqb c) s = true).
  { apply existsb_exists. exists c. split; [exact Hin|apply N.eqb_refl]. }
  congruence.
Qed.

Lemma extract_recovers_embedded_witness :
  extract array_pattern
          (lit "I suggest " ++ jlit "[`Mathematics`, `Physics`]"
             ++ lit " for [this] student.")
  = Some (Return (JArray [JString (lit "Mathematics");
                          JString (lit "Physics")])) /\
  extract object_pattern
          (lit "Roadmap: " ++ jlit "{`roadmap`: {`levels`: [{`level`: 1}]}}"
             ++ lit " {end")
  = Some (Return (JObject
                    [(lit "roadmap",
                      JObject [(lit "levels",
                                JArray [JObject [(lit "level", JInt 1)]])])])).
Proof.
  split.
  - apply (proj1 (extract_recovers_embedded
                    (lit "I suggest ") (jlit "`Mathematics`, `Physics`")
                    (lit " for [this] student.")
                    (JArray [JString (lit "Mathematics");
                             JString (lit "Physics")]))).
    + vm_compute. reflexivity.
    + apply not_in_dec. vm_compute. reflexivity.
    + apply not_in_dec. vm_compute. reflexivity.
  - apply (proj2 (extract_recovers_embedded
                    (lit "Roadmap: ")
                    (jlit "`roadmap`: {`levels`: [{`level`: 1}]}")
                    (lit " {end")
                    (JObject
                       [(lit "roadmap",
                         JObject [(lit "levels",
                                   JArray [JObject [(lit "level", JInt 1)]])])]))).
    + vm_compute. reflexivity.
    + apply not_in_dec. vm_compute. reflexivity.
    + apply not_in_dec. vm_compute. reflexivity.
Defined.

(** C1, as stated, fails.  A well-formed array in the very format that
    stage 2 asks for holds a nested array, and the lazy pattern stops at
    the first closing bracket; a well-formed object is lost when the
    prose around it holds a brace. *)
Lemma extractor_round_trip_counterexample :
  (json_loads (jlit "[{`course_title`: `Calculus`, `prerequisites`: [`Algebra`]}]")
   = Return (JArray [JObject [(lit "course_title", JString (lit "Calculus"));
                              (lit "prerequisites",
                               JArray [JString (lit "Algebra")])]]) /\
   extract array_pattern
     (lit "Courses: "
        ++ jlit "[{`course_title`: `Calculus`, `prerequisites`: [`Algebra`]}]"
        ++ lit " Good luck.")
   = Some (Raise (JSONDecodeError
                    (jlit "[{`course_title`: `Calculus`, `prerequisites`: [`Algebra`]")))) /\
  (json_loads (jlit "{`total_estimated_time`: `1 year`}")
   = Return (JObject [(lit "total_estimated_time", JString (lit "1 year"))]) /\
   extract object_pattern
     (lit "Plan: " ++ jlit "{`total_estimated_time`: `1 year`}"
        ++ lit " (see {notes})")
   = Some (Raise (JSONDecodeError
                    (jlit "{`total_estimated_time`: `1 year`} (see {notes}")))).
Proof. vm_compute. repeat split; reflexivity. Qed.

(* ================================================================= *)
(** * A text that opens with a brace decodes to a dictionary *)

Module JsonFacts.

Import Json.

Lemma rooted_step (st : pstate) (t : token) :
  rooted st = true -> rooted (parse_step st t) = true.
Proof.
  destruct st as [stack|stack|stack|stack m|stack m k|v stack|];
    destruct t; simpl; intros H; try reflexivity; try assumption;
    try (destruct stack as [|[|] [|]]; simpl in *;
         solve [reflexivity | assumption | discriminate]).
Qed.

Lemma rooted_run (toks : list token) :
  forall st, rooted st = true ->
             rooted (fold_left parse_step toks st) = true.
Proof.
  induction toks as [|t toks IH]; intros st H; simpl; [exact H|].
  apply IH. apply rooted_step. exact H.
Qed.

(** The lexer only ever adds tokens in front of those it has. *)
Lemma lex_step_extends (m : mode) (toks : list token) (c : char) :
  exists new, snd (lex_step (m, toks) c) = new ++ toks.
Proof.
  assert (Hidle : forall toks0, exists new,
             snd (lex_idle toks0 c) = new ++ toks0).
  { intros toks0. unfold lex_idle.
    destruct (isws c); [exists []; reflexivity|].
    destruct (c =? 34)%N; [exists []; reflexivity|].
    destruct (isatom c); [exists []; reflexivity|].
    destruct (punct c) as [t|]; [exists [t]|exists [TBad]]; reflexivity. }
  destruct m as [|acc|acc high|acc high|acc high ds]; simpl.
  - apply Hidle.
  - destruct (isatom c); [exists []; reflexivity|].
    destruct (Hidle (classify_atom (rev acc) :: toks)) as [new ->].
    exists (new ++ [classify_atom (rev acc)]).
    rewrite <- app_assoc. reflexivity.
  - destruct (c =? 34)%N; [exists [TStr (rev acc)]; reflexivity|].
    destruct (c =? 92)%N; [exists []; reflexivity|].
    destruct (c <? 32)%N; [exists [TBad]|exists []]; reflexivity.
  - destruct (c =? 117)%N; [exists []; reflexivity|].
    destruct (escape c); [exists []|exists [TBad]]; reflexivity.
  - destruct (hexval c); [|exists [TBad]; reflexivity].
    destruct ds as [|d1 [|d2 [|d3 [|d4 ds]]]]; exists []; reflexivity.
Qed.

Lemma lex_run_extends (s : str) :
  forall m toks, exists new,
    snd (fold_left lex_step s (m, toks)) = new ++ toks.
Proof.
  induction s as [|c s IH]; intros m toks; cbn [fold_left].
  - exists []; reflexivity.
  - destruct (lex_step_extends m toks c) as [new1 H1].
    destruct (lex_step (m, toks) c) as [m1 toks1]. simpl in H1. subst toks1.
    destruct (IH m1 (new1 ++ toks)) as [new2 ->].
    exists (new2 ++ new1). rewrite <- app_assoc. reflexivity.
Qed.

Lemma lex_brace (s : str) : exists toks, lex (lbrace :: s) = TLBrace :: toks.
Proof.
  unfold lex. cbn [fold_left].
  change (lex_step (Idle, []) lbrace) with (Idle, [TLBrace]).
  destruct (lex_run_extends s Idle [TLBrace]) as [new H].
  destruct (fold_left lex_step s (Idle, [TLBrace])) as [m toks].
  simpl in H. subst toks.
  destruct m; rewrite ?app_comm_cons, rev_app_distr; simpl; eauto.
Qed.

Lemma loads_brace (s : str) (v : json) :
  loads (lbrace :: s) = Return v -> is_object v = true.
Proof.
  unfold loads. destruct (lex_brace s) as [toks ->]. cbn [fold_left].
  change (parse_step (SValue []) TLBrace) with (SObjectStart []).
  pose proof (rooted_run toks (SObjectStart []) eq_refl) as H.
  destruct (fold_left parse_step toks (SObjectStart [])) as
    [stack|stack|stack|stack m|stack m k|v' [|f stack]|]; try discriminate.
  intros E; injection E as <-. exact H.
Qed.

End JsonFacts.

(* ================================================================= *)
(** * Stage 2 *)

Section Stage2.

Variable env : Env.
Variables advisor_description conversation_transcript skills_text : str.





End Stage2.



(* ================================================================= *)
(** * The partitioner *)

Section Dict.

Context {V : Type}.

Lemma dict_get_set (k k' : str) (v : V) (d : list (str * V)) :
  dict_get k (dict_set k' v d)
  = if Str.eqb k k' then Some v else dict_get k d.
Proof.
  induction d as [|[k0 v0] d IH]; simpl.
  - destruct (Str.eqb k k'); reflexivity.
  - destruct (Str.eqb k' k0) eqn:E0; simpl.
    + apply StrFacts.eqb_eq in E0; subst k0.
      destruct (Str.eqb k k'); reflexivity.
    + rewrite IH. destruct (Str.eqb k k0) eqn:E1; [|reflexivity].
      destruct (Str.eqb k k') eqn:E2; [|reflexivity].
      apply StrFacts.eqb_eq in E1, E2. subst.
      rewrite StrFacts.eqb_refl in E0. discriminate.
Qed.

End Dict.

Lemma group_group_append (name name' : str) (course : json)
  (departments : list (str * list json)) :
  group name (group_append name' course departments)
  = if Str.eqb name name' then group name departments ++ [course]
    else group name departments.
Proof.
  unfold group, group_append. rewrite dict_get_set.
  destruct (Str.eqb name name') eqn:E; [|reflexivity].
  apply StrFacts.eqb_eq in E; subst. reflexivity.
Qed.

Lemma In_group_append (name name' : str) (course x : json)
  (departments : list (str * list json)) :
  In x (group name (group_append name' course departments)) <->
  In x (group name departments) \/ (x = course /\ name' = name).
Proof.
  rewrite group_group_append. destruct (Str.eqb name name') eqn:E.
  - apply StrFacts.eqb_eq in E; subst. rewrite in_app_iff. simpl.
    intuition congruence.
  - apply StrFacts.eqb_neq in E. intuition congruence.
Qed.

Lemma place_in_spec (course : json) (names : list json) :
  forallb is_string names = true ->
  forall departments,
  exists departments',
    place_in names course departments = Return departments' /\
    forall name x,
      In x (group name departments') <->
      In x (group name departments) \/ (x = course /\ In name (names_of names)).
Proof.
  induction names as [|n names IH]; intros Hs departments; simpl.
  - eexists; split; [reflexivity|]. intros; tauto.
  - simpl in Hs. apply andb_true_iff in Hs as [Hn Hs].
    destruct n; try discriminate Hn.
    destruct (IH Hs (group_append (clean_filename s) course departments))
      as [departments' [-> H]].
    eexists; split; [reflexivity|]. intros name x.
    rewrite H, In_group_append. simpl. intuition congruence.
Qed.

Lemma place_course_spec (course : json) (departments : list (str * list json)) :
  record_ok course = true ->
  exists departments',
    place_course course departments = Return departments' /\
    forall name x,
      In x (group name departments') <->
      In x (group name departments) \/ (x = course /\ In name (targets course)).
Proof.
  unfold record_ok, place_course, targets, listed_departments.
  destruct (py_get course (lit "department_name") (JArray [])) as [v|];
    [|discriminate].
  intros Hok. cbn [rbind].
  destruct (negb (truthy v)) eqn:T.
  - eexists; split; [reflexivity|]. intros name x.
    rewrite In_group_append. simpl. intuition congruence.
  - destruct v; try congruence.
    cbn [py_iter rbind]. apply place_in_spec. exact Hok.
Qed.

Lemma group_loop_spec (courses : list json) :
  forallb record_ok courses = true ->
  forall departments,
  exists departments',
    group_loop courses departments = Return departments' /\
    forall name x,
      In x (group name departments') <->
      In x (group name departments) \/
      (In x courses /\ In name (targets x)).
Proof.
  induction courses as [|course courses IH]; intros Hok departments; simpl.
  - eexists; split; [reflexivity|]. intros; tauto.
  - simpl in Hok. apply andb_true_iff in Hok as [Hc Hok].
    destruct (place_course_spec course departments Hc) as [d1 [-> H1]].
    cbn [rbind]. destruct (IH Hok d1) as [d2 [-> H2]].
    eexists; split; [reflexivity|]. intros name x.
    rewrite H2, H1. intuition (subst; auto).
Qed.

(** C6. For every collection of course records,
    [split_courses_by_department] puts a record that lists department
    names into the group of each of them (under its sanitized name),
    and a record whose [department_name] is missing or empty into the
    group Others and into no other. *)
Theorem split_courses_groups (courses : list json) :
  forallb record_ok courses = true ->
  exists departments,
    split_courses_by_department (JArray courses) = Return departments /\
    forall course, In course courses ->
      (forall names dept_name,
          listed_departments course = Return (JArray (map JString names)) ->
          In dept_name names ->
          In course (group (clean_filename dept_name) departments)) /\
      (forall v,
          listed_departments course = Return v -> truthy v = false ->
          In course (group (lit "Others") departments) /\
          forall name, In course (group name departments) ->
                       name = lit "Others").
Proof.
  intros Hok. unfold split_courses_by_department. cbn [py_iter rbind].
  destruct (group_loop_spec courses Hok []) as [departments [-> H]].
  exists departments. split; [reflexivity|].
  intros course Hin. split.
  - intros names dept_name Hl Hd. apply H. right. split; [exact Hin|].
    unfold targets. rewrite Hl.
    destruct names as [|n names]; [destruct Hd|].
    cbn [map truthy negb]. apply in_flat_map.
    exists (JString dept_name). split; [|left; reflexivity].
    change (JString n :: map JString names) with (map JString (n :: names)).
    apply in_map. exact Hd.
  - intros v Hl Hv. unfold targets in H. split.
    + apply H. right. split; [exact Hin|]. rewrite Hl, Hv. left; reflexivity.
    + intros name Hg. apply H in Hg as [Hg|[_ Hg]]; [destruct Hg|].
      rewrite Hl, Hv in Hg. destruct Hg as [<-|[]]. reflexivity.
Qed.

Lemma split_courses_groups_witness :
  exists departments,
    split_courses_by_department (JArray example_corpus) = Return departments /\
    forall course, In course example_corpus ->
      (forall names dept_name,
          listed_departments course = Return (JArray (map JString names)) ->
          In dept_name names ->
          In course (group (clean_filename dept_name) departments)) /\
      (forall v,
          listed_departments course = Return v -> truthy v = false ->
          In course (group (lit "Others") departments) /\
          forall name, In course (group name departments) ->
                       name = lit "Others").
Proof.
  apply (split_courses_groups example_corpus). reflexivity.
Defined.

(* ================================================================= *)
(** * Which faults reach the caller *)

Lemma map_result_ok {X Y} (f : X -> result Y) (l : list X) :
  (forall x, In x l -> exists y, f x = Return y) ->
  exists ys, map_result f l = Return ys.
Proof.
  induction l as [|x l IH]; intros H; simpl; [eauto|].
  destruct (H x (or_introl eq_refl)) as [y ->].
  destruct IH as [ys ->]; [intros x' Hx'; apply H; right; exact Hx'|].
  simpl. eauto.
Qed.

Lemma course_line_ok (course : json) :
  is_object course = true -> exists line, course_line course = Return line.
Proof.
  destruct course; try discriminate. intros _.
  unfold course_line. simpl. eauto.
Qed.

Lemma format_courses_ok (department_courses : json) :
  group_ok department_courses = true ->
  truthy department_courses = true ->
  exists courses_text, format_courses department_courses = Return courses_text.
Proof.
  unfold group_ok. intros H T. rewrite T in H. simpl in H.
  destruct department_courses; try discriminate H.
  unfold format_courses. cbn [first_50 rbind py_iter].
  apply map_result_ok. intros x Hx. apply course_line_ok.
  rewrite forallb_forall in H. apply H. exact Hx.
Qed.

Lemma all_strings_ok (titles : list json) :
  forallb is_string titles = true -> exists ss, all_strings titles = Return ss.
Proof.
  induction titles as [|t titles IH]; simpl; intros H; [eauto|].
  apply andb_true_iff in H as [Ht H]. destruct t; try discriminate Ht.
  destruct (IH H) as [ss ->]. eauto.
Qed.

Lemma course_entry_ok (course : json) :
  course_ok course = true -> exists entry, course_entry course = Return entry.
Proof.
  unfold course_ok, course_entry.
  destruct course; try discriminate. cbn [py_get rbind].
  destruct (dict_get (lit "prerequisites") members) as [listed|].
  - destruct listed; try discriminate. intros H.
    unfold py_join. cbn [py_iter].
    destruct (all_strings_ok items H) as [ss ->]. cbn [rbind]. eauto.
  - intros _. unfold py_join. cbn [py_iter all_strings rbind]. eauto.
Qed.

Lemma select_departments_reads_reply (env : Env)
  (advisor_description conversation_transcript : str)
  (skill_levels : list (list str)) (skills_text : str) (st : State) :
  format_skills skill_levels = Return skills_text ->
  select_departments env advisor_description conversation_transcript
                     skill_levels st
  = (Return (selection_of_reply
               (available_departments st)
               (fst (_call_claude_api env
                       (departments_prompt advisor_description
                          conversation_transcript skills_text st) 3 st))),
     snd (_call_claude_api env
            (departments_prompt advisor_description conversation_transcript
                                skills_text st) 3 st)).
Proof.
  intros Hs. unfold select_departments, bind, lift. rewrite Hs.
  unfold try_except, bind, call_api, ret, departments_prompt.
  pose proof (call_api_catalog env
                (DepartmentsPrompt advisor_description conversation_transcript
                   skills_text (format_departments (available_departments st)))
                st) as Hcat.
  destruct (_call_claude_api env _ 3 st) as [response st1]. simpl in Hcat.
  cbn [fst snd]. unfold selection_of_reply, extract.
  destruct (nonempty response) as [text|]; [|reflexivity].
  destruct (Re.search array_pattern text) as [json_match|]; [|reflexivity].
  cbn [option_map]. unfold lift.
  destruct (json_loads json_match) as [departments|e]; [|reflexivity].
  destruct (py_iter departments) as [items|e]; [|reflexivity].
  rewrite Hcat.
  destruct (valid_departments items (available_departments st)) as [valid|e];
    reflexivity.
Qed.

Lemma ask_courses_reads_reply (env : Env) (prompt : Prompt) (st : State) :
  try_except (ask_courses env prompt) (fun _ => ret []) st
  = (Return (courses_of_reply (fst (_call_claude_api env prompt 3 st))),
     snd (_call_claude_api env prompt 3 st)).
Proof.
  unfold try_except, ask_courses, bind, call_api, ret, lift.
  destruct (_call_claude_api env prompt 3 st) as [response st1].
  cbn [fst snd]. unfold courses_of_reply, extract.
  destruct (nonempty response) as [text|]; [|reflexivity].
  destruct (Re.search array_pattern text) as [json_match|]; [|reflexivity].
  cbn [option_map].
  destruct (json_loads json_match) as [courses|e]; [|reflexivity].
  destruct (py_iter courses) as [items|e]; reflexivity.
Qed.

Lemma courses_loop_reads_replies (env : Env)
  (advisor transcript skills_text : str) (departments : list str) :
  (forall d, In d departments ->
             group_ok (_load_department_courses env d) = true) ->
  forall acc st,
    courses_loop env departments advisor transcript skills_text acc st
    = (Return (acc ++ fst (courses_of_replies env advisor transcript
                             skills_text departments st)),
       snd (courses_of_replies env advisor transcript skills_text
                               departments st)).
Proof.
  induction departments as [|department rest IH]; intros Hok acc st;
    cbn [courses_loop courses_of_replies].
  - unfold ret. cbn [fst snd]. rewrite app_nil_r. reflexivity.
  - assert (Hrest : forall d, In d rest ->
                      group_ok (_load_department_courses env d) = true)
      by (intros d Hd; apply Hok; right; exact Hd).
    destruct (truthy (_load_department_courses env department)) eqn:T;
      cbn [negb]; [|apply IH; exact Hrest].
    destruct (format_courses_ok _ (Hok department (or_introl eq_refl)) T)
      as [courses_text Hf].
    rewrite Hf. unfold bind at 1. unfold lift.
    pose proof (ask_courses_reads_reply env
                  (CoursesPrompt department advisor transcript skills_text
                                 courses_text) st) as Hask.
    unfold bind at 1. unfold try_except in *. unfold bind at 1.
    destruct (ask_courses env _ st) as [[courses|e] st1];
      unfold ret in *; injection Hask as Hc Hst;
      rewrite (IH Hrest); cbn [fst snd]; rewrite <- Hc, <- Hst.
    + rewrite app_assoc. reflexivity.
    + reflexivity.
Qed.

Lemma create_learning_roadmap_reads_reply (env : Env)
  (course : json) (courses : list json) (student_profile : option json)
  (entries : list (json * json * json * str)) (st : State) :
  map_result course_entry (course :: courses) = Return entries ->
  create_learning_roadmap env (course :: courses) student_profile st
  = (Return (roadmap_of_reply
               env
               (fst (_call_claude_api env
                       (roadmap_prompt entries student_profile) 3 st))),
     snd (_call_claude_api env (roadmap_prompt entries student_profile) 3 st)).
Proof.
  intros He. unfold create_learning_roadmap.
  unfold bind at 1. unfold lift at 1. rewrite He.
  unfold try_except, bind, call_api, ret, lift, roadmap_prompt.
  destruct (_call_claude_api env _ 3 st) as [response st1].
  cbn [fst snd]. unfold roadmap_of_reply, extract.
  destruct (nonempty response) as [text|]; [|reflexivity].
  destruct (Re.search object_pattern text) as [json_match|]; [|reflexivity].
  cbn [option_map].
  destruct (json_loads json_match) as [roadmap|e]; reflexivity.
Qed.

Lemma roadmap_of_reply_object (env : Env) (response : option str) :
  is_object (roadmap_of_reply env response) = true.
Proof.
  unfold roadmap_of_reply, extract.
  destruct (nonempty response) as [text|]; [|reflexivity].
  destruct (Re.search object_pattern text) as [json_match|] eqn:S;
    [|reflexivity].
  apply ReFacts.search_head in S as [rest ->]. cbn [option_map].
  destruct (json_loads (lbrace :: rest)) as [roadmap|e] eqn:L; [|reflexivity].
  apply JsonFacts.loads_brace in L. exact L.
Qed.

(** C5, as amended.  Whatever the model replies (no bracketed region, a
    bracketed region that is not JSON, anything else), a stage whose
    input has the documented shape returns to its caller and does not
    raise.  Stage 1 returns what the reply selects, and the empty list
    when the reply fails; stage 2 returns what the replies for its
    departments select, a reply that fails adding nothing; stage 3
    returns a dictionary: the one decoded from the reply, or an error
    dictionary when no course is given or the reply fails.  The shape:
    each skill record has a name and a level, each loaded course group
    is empty or a list of records, each course given to stage 3 is a
    record whose prerequisites are a list of titles. *)
Theorem stages_return_on_wellformed_input (env : Env) (st : State)
  (advisor_description conversation_transcript : str)
  (skill_levels : list (list str)) :
  skills_ok skill_levels ->
  exists skills_text,
    format_skills skill_levels = Return skills_text /\
    (let reply :=
       _call_claude_api env
         (departments_prompt advisor_description conversation_transcript
                             skills_text st) 3 st in
     select_departments env advisor_description conversation_transcript
                        skill_levels st
     = (Return (selection_of_reply (available_departments st) (fst reply)),
        snd reply)) /\
    (forall selected_departments,
        (forall d, In d selected_departments ->
                   group_ok (_load_department_courses env d) = true) ->
        let replies :=
          courses_of_replies env advisor_description conversation_transcript
                             skills_text selected_departments st in
        select_courses_with_prerequisites
          env selected_departments advisor_description
          conversation_transcript skill_levels st
        = (Return (fst replies), snd replies)) /\
    (forall courses_with_prereqs student_profile,
        forallb course_ok courses_with_prereqs = true ->
        exists entries,
          map_result course_entry courses_with_prereqs = Return entries /\
          let reply :=
            _call_claude_api env (roadmap_prompt entries student_profile)
                             3 st in
          create_learning_roadmap env courses_with_prereqs student_profile st
          = match courses_with_prereqs with
            | [] =>
                (Return (error_dict
                           (lit "No courses provided for roadmap creation")),
                 st)
            | _ :: _ => (Return (roadmap_of_reply env (fst reply)), snd reply)
            end) /\
    (forall response, is_object (roadmap_of_reply env response) = true).
Proof.
  intros Hskills.
  destruct (format_skills_ok Hskills) as [skills_text Hs].
  exists skills_text. split; [exact Hs|]. split; [|split; [|split]].
  - apply select_departments_reads_reply. exact Hs.
  - intros ds Hok. unfold select_courses_with_prerequisites, bind, lift.
    rewrite Hs.
    rewrite (courses_loop_reads_replies env advisor_description
               conversation_transcript skills_text ds Hok [] st).
    reflexivity.
  - intros courses profile Hok.
    destruct (map_result_ok course_entry courses) as [entries He].
    { intros x Hx. apply course_entry_ok.
      rewrite forallb_forall in Hok. apply Hok. exact Hx. }
    exists entries. split; [exact He|].
    destruct courses as [|course courses]; [reflexivity|].
    apply create_learning_roadmap_reads_reply. exact He.
  - apply roadmap_of_reply_object.
Qed.

Lemma stages_return_on_wellformed_input_witness :
  skills_ok [[lit "Mathematics"; lit "Beginner"]] /\
  select_departments prose_env [] [] [[lit "Mathematics"; lit "Beginner"]]
                     init
  = (Return [], after init 1 []) /\
  select_courses_with_prerequisites
    physics_only_env [lit "Alchemy"; lit "Physics"] [] []
    [[lit "Mathematics"; lit "Beginner"]] init
  = (Return [JObject [(lit "course_title", JString (lit "Mechanics"))]],
     after init 1 []) /\
  create_learning_roadmap
    garbled_env [JObject [(lit "course_title", JString (lit "Mechanics"))]]
    None init
  = (Return (error_dict (lit "Roadmap creation failed: Expecting value")),
     after init 1 []).
Proof.
  assert (Hs : skills_ok [[lit "Mathematics"; lit "Beginner"]]).
  { constructor; [simpl; lia|constructor]. }
  split; [exact Hs|]. split; [|split].
  - destruct (stages_return_on_wellformed_input prose_env init [] [] Hs)
      as [skills_text [_ [H1 _]]].
    rewrite H1. vm_compute. reflexivity.
  - destruct (stages_return_on_wellformed_input physics_only_env init [] [] Hs)
      as [skills_text [_ [_ [H2 _]]]].
    rewrite (H2 [lit "Alchemy"; lit "Physics"]).
    + vm_compute. reflexivity.
    + intros d [<-|[<-|[]]]; reflexivity.
  - destruct (stages_return_on_wellformed_input garbled_env init [] [] Hs)
      as [skills_text [_ [_ [_ [H3 _]]]]].
    destruct (H3 [JObject [(lit "course_title", JString (lit "Mechanics"))]]
                 None eq_refl) as [entries [He H]].
    rewrite H. vm_compute in He. injection He as <-.
    vm_compute. reflexivity.
Defined.

(** C5, as stated, fails.  Stage 2 hands on what the model selected
    without looking at it, and stage 3 raises on it while it writes its
    prompt, outside of its [try]; stage 1 raises on a skill record with
    a name only. *)
Lemma stage_raises_counterexample :
  (fst (select_courses_with_prerequisites
          careless_env [lit "Physics"] [] [] [] init)
   = Return [JObject [(lit "course_title", JString (lit "Mechanics"));
                      (lit "prerequisites", JInt 5)]] /\
   fst (create_learning_roadmap
          careless_env
          [JObject [(lit "course_title", JString (lit "Mechanics"));
                    (lit "prerequisites", JInt 5)]]
          None init)
   = Raise TypeError) /\
  fst (select_departments careless_env [] [] [[lit "Mathematics"]] init)
  = Raise IndexError.
Proof. vm_compute. repeat split; reflexivity. Qed.

(* ================================================================= *)
(** * More on the completion client *)

Lemma after_after (st : State) (n m : nat) (d1 d2 : list Z) :
  after (after st n d1) m d2 = after st (n + m) (d1 ++ d2).
Proof.
  unfold after; simpl. rewrite app_assoc, Nat.add_assoc. reflexivity.
Qed.

(** What the loop does against any service: it stops at the first
    answer, or when its iterations are used up. *)
Lemma attempts_any_service (env : Env) (prompt : Prompt) (max_retries : Z)
  (todo : nat) :
  forall attempt st,
    (Z.of_nat todo + attempt = max_retries)%Z ->
    exists n,
      n <= todo /\ (0 < todo -> 0 < n) /\
      snd (attempts env prompt max_retries todo attempt st)
      = after st n (backoff attempt (pred n)) /\
      (forall i, i < pred n -> service env (requests st + i) prompt = None) /\
      match fst (attempts env prompt max_retries todo attempt st) with
      | Some text =>
          service env (requests st + pred n) prompt = Some text
      | None =>
          n = todo /\
          forall i, i < n -> service env (requests st + i) prompt = None
      end.
Proof.
  induction todo as [|todo IH]; intros attempt st Hmax.
  - exists 0. simpl. rewrite after_0.
    repeat split; auto; intros; lia.
  - cbn [attempts]. unfold messages_create.
    destruct (service env (requests st) prompt) as [text|] eqn:E.
    + exists 1. simpl. unfold after; simpl.
      rewrite app_nil_r, Nat.add_1_r, Nat.add_0_r.
      repeat split; auto; intros; lia.
    + destruct todo as [|todo].
      * replace (attempt <? max_retries - 1)%Z with false
          by (symmetry; apply Z.ltb_ge; lia).
        exists 1. simpl. unfold after; simpl.
        rewrite app_nil_r, Nat.add_1_r.
        repeat split; auto; try lia.
        intros i Hi. replace i with 0 by lia.
        rewrite Nat.add_0_r. exact E.
      * replace (attempt <? max_retries - 1)%Z with true
          by (symmetry; apply Z.ltb_lt; lia).
        set (st2 := sleep (2 ^ attempt)
                      {| available_departments := available_departments st;
                         requests := S (requests st);
                         slept := slept st |}).
        destruct (IH (attempt + 1)%Z st2) as [n [Hn [Hpos [Hst [Hfail Hres]]]]];
          [lia|].
        assert (Hn1 : 0 < n) by (apply Hpos; lia).
        assert (Hreq : forall i, requests st2 + i = requests st + S i)
          by (intros i; unfold st2, sleep; simpl; lia).
        exists (S n). split; [lia|]. split; [lia|]. split; [|split].
        -- rewrite Hst. destruct n as [|n]; [lia|].
           cbn [pred]. rewrite backoff_S.
           unfold after, st2, sleep; simpl. rewrite <- app_assoc.
           f_equal. lia.
        -- intros i Hi. destruct i as [|i].
           ++ rewrite Nat.add_0_r. exact E.
           ++ rewrite <- Hreq. apply Hfail. simpl in Hi. lia.
        -- destruct (fst (attempts env prompt max_retries (S todo)
                                   (attempt + 1) st2)) as [text|].
           ++ cbn [pred]. replace n with (S (pred n)) by lia.
              rewrite <- Hreq. exact Hres.
           ++ destruct Hres as [-> Hall]. split; [reflexivity|].
              intros i Hi. destruct i as [|i].
              ** rewrite Nat.add_0_r. exact E.
              ** rewrite <- Hreq. apply Hall. lia.
Qed.

Lemma total_backoff (n : nat) :
  forall first, (0 <= first)%Z ->
                total (backoff first n) = (2 ^ first * (2 ^ Z.of_nat n - 1))%Z.
Proof.
  induction n as [|n IH]; intros first Hf.
  - simpl. lia.
  - rewrite backoff_S. cbn [total fold_right]. fold (total (backoff (first + 1) n)).
    rewrite IH by lia.
    rewrite Nat2Z.inj_succ, Z.pow_succ_r by lia.
    rewrite Z.pow_add_r by lia. change (2 ^ 1)%Z with 2%Z. lia.
Qed.

(** X1. Against any service, [_call_claude_api] sends at most
    [max_retries] requests and stops at the first that is answered:
    all requests before the last have failed, a returned text is the
    answer to the last request, and [None] is returned only when
    [max_retries] requests have failed.  It sleeps 2^0, 2^1, ... once
    after every request but the last. *)
Theorem call_claude_api_first_answer (env : Env) (prompt : Prompt)
  (max_retries : Z) (st : State) :
  exists n,
    n <= Z.to_nat max_retries /\
    snd (_call_claude_api env prompt max_retries st)
    = after st n (backoff 0 (pred n)) /\
    (forall i, i < pred n -> service env (requests st + i) prompt = None) /\
    match fst (_call_claude_api env prompt max_retries st) with
    | Some text =>
        0 < n /\ service env (requests st + pred n) prompt = Some text
    | None =>
        n = Z.to_nat max_retries /\
        forall i, i < n -> service env (requests st + i) prompt = None
    end.
Proof.
  unfold _call_claude_api.
  destruct (Z.to_nat max_retries) as [|todo] eqn:E.
  - exists 0. simpl. rewrite after_0. repeat split; auto; intros; lia.
  - destruct (@attempts_any_service env prompt max_retries (S todo) 0%Z st)
      as [n [Hn [Hpos [Hst [Hfail Hres]]]]]; [lia|].
    exists n. repeat split; auto.
    destruct (fst (attempts env prompt max_retries (S todo) 0 st));
      [split; [apply Hpos; lia|exact Hres]|exact Hres].
Qed.

(** X2. The time one call spends asleep is below 2^(max_retries - 1)
    (at most 3 time units with the default of three attempts),
    whatever the service does. *)
Theorem call_claude_api_sleep_bound (env : Env) (prompt : Prompt)
  (max_retries : Z) (st : State) :
  exists delays,
    slept (snd (_call_claude_api env prompt max_retries st))
    = slept st ++ delays /\
    (0 <= total delays < 2 ^ Z.max 0 (max_retries - 1))%Z.
Proof.
  unfold _call_claude_api.
  destruct (Z.to_nat max_retries) as [|todo] eqn:E.
  - exists []. simpl. rewrite app_nil_r. split; [reflexivity|].
    split; [lia|]. apply Z.pow_pos_nonneg; lia.
  - destruct (@attempts_any_service env prompt max_retries (S todo) 0%Z st)
      as [n [Hn [Hpos [Hst _]]]]; [lia|].
    exists (backoff 0 (pred n)). rewrite Hst. split; [reflexivity|].
    rewrite total_backoff by lia. rewrite Z.pow_0_r, Z.mul_1_l.
    assert (H : (2 ^ Z.of_nat (pred n) <= 2 ^ Z.max 0 (max_retries - 1))%Z)
      by (apply Z.pow_le_mono_r; lia).
    assert (H1 : (0 < 2 ^ Z.of_nat (pred n))%Z)
      by (apply Z.pow_pos_nonneg; lia).
    lia.
Qed.

(* ================================================================= *)
(** * What the two patterns match *)

Module ReMore.

Import Re.

Lemma split_first (c : char) (s : str) :
  In c s -> exists a b, s = a ++ c :: b /\ ~ In c a.
Proof.
  induction s as [|x s IH]; intros H; [destruct H|].
  destruct (N.eq_dec x c) as [->|Hx].
  - exists [], s. split; [reflexivity|intros []].
  - destruct H as [H|H]; [contradiction|].
    destruct (IH H) as [a [b [-> Ha]]].
    exists (x :: a), b. split; [reflexivity|].
    intros [E|E]; [contradiction|apply Ha; exact E].
Qed.

Lemma split_last (c : char) (s : str) :
  In c s -> exists a b, s = a ++ c :: b /\ ~ In c b.
Proof.
  induction s as [|x s IH]; intros H; [destruct H|].
  destruct (in_dec N.eq_dec c s) as [Hs|Hs].
  - destruct (IH Hs) as [a [b [-> Hb]]].
    exists (x :: a), b. split; [reflexivity|exact Hb].
  - destruct H as [->|H]; [|contradiction].
    exists [], s. split; [reflexivity|exact Hs].
Qed.

Lemma lazy_none (c : char) (s : str) :
  ~ In c s -> match_here [DotStarLazy; Lit c] s = None.
Proof.
  induction s as [|x s IH]; intros Hin; rewrite ReFacts.match_lazy.
  - reflexivity.
  - rewrite ReFacts.match_lit.
    destruct (N.eqb_spec x c) as [->|_]; [exfalso; apply Hin; left; reflexivity|].
    rewrite IH by (intros H; apply Hin; right; exact H). reflexivity.
Qed.

(** A pattern that ends with a literal matches nothing in a text
    without that character. *)
Lemma search_none_open (o : char) (p : list atom) (s : str) :
  ~ In o s -> search (Lit o :: p) s = None.
Proof.
  induction s as [|x s IH]; intros Hin; [reflexivity|].
  rewrite ReFacts.search_eq, ReFacts.match_lit.
  destruct (N.eqb_spec x o) as [->|_]; [exfalso; apply Hin; left; reflexivity|].
  apply IH. intros H; apply Hin; right; exact H.
Qed.

Lemma search_none_close (o c : char) (star : atom) (s : str) :
  star = DotStarLazy \/ star = DotStarGreedy ->
  ~ In c s -> search [Lit o; star; Lit c] s = None.
Proof.
  intros Hstar. induction s as [|x s IH]; intros Hin; [reflexivity|].
  assert (Hs : ~ In c s) by (intros H; apply Hin; right; exact H).
  rewrite ReFacts.search_eq, ReFacts.match_lit.
  destruct Hstar as [-> | ->].
  - rewrite lazy_none by exact Hs.
    destruct (x =? o)%N; simpl; apply IH; exact Hs.
  - rewrite ReFacts.greedy_none by exact Hs.
    destruct (x =? o)%N; simpl; apply IH; exact Hs.
Qed.

(** After the first opening character, every later one is followed by
    a part of what follows the first. *)
Lemma no_close_after (o c : char) (tail rest' : str) (before : str) :
  ~ In o before -> ~ In c tail ->
  forall before', before ++ o :: tail = before' ++ o :: rest' ->
                  ~ In c rest'.
Proof.
  intros Hb Hc. induction before as [|x before IH]; intros before' E Hin.
  - destruct before' as [|y before']; simpl in E.
    + injection E as E. subst. contradiction.
    + injection E as _ E. subst. apply Hc.
      apply in_or_app; right; right; exact Hin.
  - destruct before' as [|y before']; simpl in E.
    + injection E as E1 _. apply Hb. left; exact E1.
    + injection E as _ E.
      apply (IH (fun H => Hb (or_intror H)) before' E Hin).
Qed.

(** The array pattern on any text. *)
Lemma search_array_cases (s : str) :
  (Re.search array_pattern s = None /\
   forall before rest, s = before ++ lbracket :: rest -> ~ In rbracket rest) \/
  (exists before inner rest,
      s = before ++ lbracket :: inner ++ rbracket :: rest /\
      ~ In lbracket before /\ ~ In rbracket inner /\
      Re.search array_pattern s = Some (lbracket :: inner ++ [rbracket])).
Proof.
  destruct (in_dec N.eq_dec lbracket s) as [Ho|Ho].
  - destruct (split_first _ _ Ho) as [before [tail [-> Hb]]].
    destruct (in_dec N.eq_dec rbracket tail) as [Hc|Hc].
    + right. destruct (split_first _ _ Hc) as [inner [rest [-> Hi]]].
      exists before, inner, rest. repeat split; auto.
      apply ReFacts.search_array; assumption.
    + left. split.
      * unfold array_pattern. rewrite ReFacts.search_skips by exact Hb.
        rewrite ReFacts.search_eq, ReFacts.match_lit, N.eqb_refl.
        rewrite lazy_none by exact Hc. simpl.
        apply search_none_close; auto.
      * intros before' rest' E.
        apply (@no_close_after lbracket rbracket tail rest' before Hb Hc before' E).
  - left. split; [apply search_none_open; exact Ho|].
    intros before rest -> _. apply Ho. apply in_or_app; right; left; reflexivity.
Qed.

(** The object pattern on any text. *)
Lemma search_object_cases (s : str) :
  (Re.search object_pattern s = None /\
   forall before rest, s = before ++ lbrace :: rest -> ~ In rbrace rest) \/
  (exists before inner rest,
      s = before ++ lbrace :: inner ++ rbrace :: rest /\
      ~ In lbrace before /\ ~ In rbrace rest /\
      Re.search object_pattern s = Some (lbrace :: inner ++ [rbrace])).
Proof.
  destruct (in_dec N.eq_dec lbrace s) as [Ho|Ho].
  - destruct (split_first _ _ Ho) as [before [tail [-> Hb]]].
    destruct (in_dec N.eq_dec rbrace tail) as [Hc|Hc].
    + right. destruct (split_last _ _ Hc) as [inner [rest [-> Hi]]].
      exists before, inner, rest. repeat split; auto.
      apply ReFacts.search_object; assumption.
    + left. split.
      * unfold object_pattern. rewrite ReFacts.search_skips by exact Hb.
        rewrite ReFacts.search_eq, ReFacts.match_lit, N.eqb_refl.
        rewrite ReFacts.greedy_none by exact Hc. simpl.
        apply search_none_close; auto.
      * intros before' rest' E.
        apply (@no_close_after lbrace rbrace tail rest' before Hb Hc before' E).
  - left. split; [apply search_none_open; exact Ho|].
    intros before rest -> _. apply Ho. apply in_or_app; right; left; reflexivity.
Qed.

End ReMore.

(** X3. The pattern of stages 1 and 2 matches exactly when some opening
    bracket of the reply is followed by a closing one, and the match
    then runs from the first opening bracket to the first closing
    bracket after it; a reply without such a region has no match. *)
Theorem array_pattern_first_to_first (response : str) :
  match Re.search array_pattern response with
  | Some json_match =>
      exists before inner rest,
        response = before ++ lbracket :: inner ++ rbracket :: rest /\
        ~ In lbracket before /\ ~ In rbracket inner /\
        json_match = lbracket :: inner ++ [rbracket]
  | None =>
      forall before rest,
        response = before ++ lbracket :: rest -> ~ In rbracket rest
  end.
Proof.
  destruct (ReMore.search_array_cases response)
    as [[-> H]|[before [inner [rest [E [Hb [Hi ->]]]]]]].
  - exact H.
  - exists before, inner, rest. auto.
Qed.

(** X4. The pattern of stage 3 matches exactly when some opening brace
    of the reply is followed by a closing one, and the match then runs
    from the first opening brace to the last closing brace of the
    reply. *)
Theorem object_pattern_first_to_last (response : str) :
  match Re.search object_pattern response with
  | Some json_match =>
      exists before inner rest,
        response = before ++ lbrace :: inner ++ rbrace :: rest /\
        ~ In lbrace before /\ ~ In rbrace rest /\
        json_match = lbrace :: inner ++ [rbrace]
  | None =>
      forall before rest,
        response = before ++ lbrace :: rest -> ~ In rbrace rest
  end.
Proof.
  destruct (ReMore.search_object_cases response)
    as [[-> H]|[before [inner [rest [E [Hb [Hi ->]]]]]]].
  - exact H.
  - exists before, inner, rest. auto.
Qed.

(* ================================================================= *)
(** * More on the stages *)

(** ** Requests *)

Section Requests.

Context {A B : Type}.

Lemma sends_ret (a : A) : sends_at_most (ret a) 0.
Proof. intros st; simpl; lia. Qed.

Lemma sends_lift (r : result A) : sends_at_most (lift r) 0.
Proof. intros st; simpl; lia. Qed.

Lemma sends_more (m : M A) (k k' : nat) :
  sends_at_most m k -> k <= k' -> sends_at_most m k'.
Proof. intros H Hk st. specialize (H st). lia. Qed.

Lemma sends_bind (m : M A) (f : A -> M B) (k1 k2 : nat) :
  sends_at_most m k1 -> (forall a, sends_at_most (f a) k2) ->
  sends_at_most (bind m f) (k1 + k2).
Proof.
  intros Hm Hf st. unfold bind. specialize (Hm st).
  destruct (m st) as [[a|e] st']; simpl in *.
  - specialize (Hf a st'). lia.
  - lia.
Qed.

Lemma sends_try_except (m : M A) (handler : exn -> M A) (k : nat) :
  sends_at_most m k -> (forall e, sends_at_most (handler e) 0) ->
  sends_at_most (try_except m handler) k.
Proof.
  intros Hm Hh st. unfold try_except. specialize (Hm st).
  destruct (m st) as [[a|e] st']; simpl in *.
  - lia.
  - specialize (Hh e st'). lia.
Qed.

End Requests.

Lemma sends_call_api (env : Env) (prompt : Prompt) :
  sends_at_most (call_api env prompt) 3.
Proof.
  intros st. unfold call_api, _call_claude_api.
  destruct (@attempts_any_service env prompt 3 (Z.to_nat 3) 0%Z st)
    as [n [Hn [_ [Hst _]]]]; [reflexivity|].
  destruct (attempts env prompt 3 (Z.to_nat 3) 0 st) as [r st'].
  simpl in *. subst st'. simpl. change (Z.to_nat 3) with 3 in Hn. lia.
Qed.

Lemma sends_select_departments (env : Env) (advisor transcript : str)
  (skill_levels : list (list str)) :
  sends_at_most (select_departments env advisor transcript skill_levels) 3.
Proof.
  unfold select_departments.
  apply sends_bind with (k1 := 0) (k2 := 3); [apply sends_lift|].
  intros skills_text st.
  apply sends_try_except with (k := 3); [|intros e; apply sends_ret].
  apply sends_bind with (k1 := 3) (k2 := 0); [apply sends_call_api|].
  intros response. destruct (nonempty response); [|apply sends_ret].
  destruct (Re.search array_pattern s); [|apply sends_ret].
  apply sends_bind with (k1 := 0) (k2 := 0); [apply sends_lift|]. intros d.
  apply sends_bind with (k1 := 0) (k2 := 0); [apply sends_lift|]. intros items.
  intros st'. simpl. lia.
Qed.

Lemma sends_ask_courses (env : Env) (prompt : Prompt) :
  sends_at_most (ask_courses env prompt) 3.
Proof.
  unfold ask_courses.
  apply sends_bind with (k1 := 3) (k2 := 0); [apply sends_call_api|].
  intros response. destruct (nonempty response); [|apply sends_ret].
  destruct (Re.search array_pattern s); [|apply sends_ret].
  apply sends_bind with (k1 := 0) (k2 := 0); [apply sends_lift|]. intros d.
  apply sends_lift.
Qed.

Lemma sends_courses_loop (env : Env) (advisor transcript skills_text : str)
  (departments : list str) :
  forall acc,
    sends_at_most
      (courses_loop env departments advisor transcript skills_text acc)
      (3 * length (asked env departments)).
Proof.
  induction departments as [|department rest IH]; intros acc;
    cbn [courses_loop asked filter]; [apply sends_ret|].
  fold (asked env rest).
  destruct (truthy (_load_department_courses env department)); cbn [negb];
    [|apply IH].
  cbn [length].
  replace (3 * S (length (asked env rest)))
    with (0 + (3 + 3 * length (asked env rest))) by lia.
  apply sends_bind; [apply sends_lift|]. intros courses_text.
  apply sends_bind; [|intros acc'; apply IH].
  apply sends_try_except; [|intros e; apply sends_ret].
  replace 3 with (3 + 0) by lia.
  apply sends_bind; [apply sends_ask_courses|intros c; apply sends_ret].
Qed.

Lemma sends_select_courses (env : Env) (departments : list str)
  (advisor transcript : str) (skill_levels : list (list str)) :
  sends_at_most
    (select_courses_with_prerequisites env departments advisor transcript
                                       skill_levels)
    (3 * length (asked env departments)).
Proof.
  unfold select_courses_with_prerequisites.
  apply sends_bind with (k1 := 0); [apply sends_lift|].
  intros skills_text. apply sends_courses_loop.
Qed.

Lemma sends_create_learning_roadmap (env : Env) (courses : list json)
  (student_profile : option json) :
  sends_at_most (create_learning_roadmap env courses student_profile) 3.
Proof.
  unfold create_learning_roadmap.
  destruct courses as [|course courses];
    [apply sends_more with (k := 0); [apply sends_ret|lia]|].
  apply sends_bind with (k1 := 0) (k2 := 3); [apply sends_lift|].
  intros entries.
  apply sends_try_except with (k := 3); [|intros e; apply sends_ret].
  apply sends_bind with (k1 := 3) (k2 := 0); [apply sends_call_api|].
  intros response. destruct (nonempty response); [|apply sends_ret].
  destruct (Re.search object_pattern s); [apply sends_lift|apply sends_ret].
Qed.

Lemma asked_length (env : Env) (departments : list str) :
  length (asked env departments) <= length departments.
Proof. apply filter_length_le. Qed.

(** X5. Whatever the service does, stage 1 sends at most 3 requests,
    stage 3 at most 3, and stage 2 at most 3 for each selected
    department whose course group is loaded and not empty; no stage
    sends a request for a department it skips. *)
Theorem stages_request_bounds (env : Env) (st : State)
  (advisor_description conversation_transcript : str)
  (skill_levels : list (list str)) (selected_departments : list str)
  (courses_with_prereqs : list json) (student_profile : option json) :
  requests (snd (select_departments env advisor_description
                   conversation_transcript skill_levels st))
  <= requests st + 3 /\
  requests (snd (select_courses_with_prerequisites
                   env selected_departments advisor_description
                   conversation_transcript skill_levels st))
  <= requests st + 3 * length (asked env selected_departments) /\
  requests (snd (create_learning_roadmap env courses_with_prereqs
                   student_profile st))
  <= requests st + 3.
Proof.
  split; [|split].
  - apply sends_select_departments.
  - apply sends_select_courses.
  - apply sends_create_learning_roadmap.
Qed.

(** X6. A run of the three stages in a row, each fed with what the one
    before returned, sends at most 15 requests: stage 1 returns at most
    three departments, so stage 2 asks at most nine times. *)
Theorem pipeline_request_bound (env : Env) (st : State)
  (advisor_description conversation_transcript : str)
  (skill_levels : list (list str)) (student_profile : option json)
  (selected : list str) (courses : list json) (st1 st2 : State) :
  select_departments env advisor_description conversation_transcript
                     skill_levels st = (Return selected, st1) ->
  select_courses_with_prerequisites env selected advisor_description
    conversation_transcript skill_levels st1 = (Return courses, st2) ->
  requests (snd (create_learning_roadmap env courses student_profile st2))
  <= requests st + 15.
Proof.
  intros H1 H2.
  pose proof (sends_select_departments env advisor_description
                conversation_transcript skill_levels st) as [_ B1].
  pose proof (sends_select_courses env selected advisor_description
                conversation_transcript skill_levels st1) as [_ B2].
  pose proof (sends_create_learning_roadmap env courses student_profile st2)
    as [_ B3].
  rewrite H1 in B1. rewrite H2 in B2. simpl in B1, B2.
  pose proof (asked_length env selected) as La.
  assert (Ls : length selected <= 3).
  { destruct (select_departments_cases env advisor_description
                conversation_transcript skill_levels st)
      as [[e [_ E]]|[sel [st' [E [L _]]]]]; rewrite H1 in E.
    - discriminate E.
    - injection E as -> _. exact L. }
  lia.
Qed.

Lemma pipeline_request_bound_witness :
  requests
    (snd (create_learning_roadmap
            repeating_env []
            None
            (snd (select_courses_with_prerequisites
                    repeating_env
                    [lit "Mathematics"; lit "Mathematics"; lit "Physics"]
                    [] [] []
                    (snd (select_departments repeating_env [] [] [] init))))))
  <= requests init + 15.
Proof.
  apply (@pipeline_request_bound repeating_env init [] [] [] None
           [lit "Mathematics"; lit "Mathematics"; lit "Physics"] []
           (snd (select_departments repeating_env [] [] [] init))
           (snd (select_courses_with_prerequisites
                   repeating_env
                   [lit "Mathematics"; lit "Mathematics"; lit "Physics"]
                   [] [] []
                   (snd (select_departments repeating_env [] [] [] init)))));
    vm_compute; reflexivity.
Defined.

(** ** When the service is down, or answers without a region *)

Lemma call_api_down (env : Env) (prompt : Prompt) (st : State) :
  (forall i, i < 3 -> service env (requests st + i) prompt = None) ->
  call_api env prompt st = (Return None, after st 3 [1; 2]%Z).
Proof.
  intros H. unfold call_api, _call_claude_api.
  rewrite (@attempts_all_fail env prompt 3 (Z.to_nat 3) 0%Z st);
    [reflexivity|reflexivity|exact H].
Qed.

Lemma call_api_first (env : Env) (prompt : Prompt) (st : State) (text : str) :
  service env (requests st) prompt = Some text ->
  call_api env prompt st = (Return (Some text), after st 1 []).
Proof.
  intros H. unfold call_api, _call_claude_api.
  rewrite (@attempts_then_success env prompt 3 0 text (Z.to_nat 3) 0%Z st);
    [reflexivity|simpl; lia|reflexivity|intros; lia|].
  rewrite Nat.add_0_r. exact H.
Qed.

Lemma courses_loop_down (env : Env) (advisor transcript skills_text : str)
  (departments : list str) :
  down env ->
  (forall d, In d departments ->
             group_ok (_load_department_courses env d) = true) ->
  forall acc st,
    courses_loop env departments advisor transcript skills_text acc st
    = (Return acc,
       after st (3 * length (asked env departments))
             (concat (repeat [1; 2]%Z (length (asked env departments))))).
Proof.
  intros Hdown.
  induction departments as [|department rest IH]; intros Hok acc st;
    cbn [courses_loop asked filter].
  - simpl. rewrite after_0. reflexivity.
  - fold (asked env rest).
    assert (Hrest : forall d, In d rest ->
                      group_ok (_load_department_courses env d) = true)
      by (intros d Hd; apply Hok; right; exact Hd).
    destruct (truthy (_load_department_courses env department)) eqn:T;
      cbn [negb]; [|apply IH; exact Hrest].
    destruct (format_courses_ok _ (Hok department (or_introl eq_refl)) T)
      as [courses_text Hf].
    unfold bind at 1. unfold lift. rewrite Hf.
    unfold bind at 1. unfold try_except, bind at 1.
    unfold ask_courses, bind at 1.
    rewrite call_api_down by (intros; apply Hdown).
    cbn [nonempty]. unfold ret at 1 2. cbv iota beta.
    rewrite app_nil_r, IH by exact Hrest.
    rewrite after_after. cbn [length repeat concat].
    replace (3 * S (length (asked env rest)))
      with (3 + 3 * length (asked env rest)) by lia.
    reflexivity.
Qed.

(** X7. When the service answers no request, every stage still returns:
    stage 1 the empty list after three requests and sleeps of 1 and 2,
    stage 2 the empty list after three requests for each department it
    asks about, stage 3 its error dictionary after three requests. *)
Theorem stages_when_service_down (env : Env) (st : State)
  (advisor_description conversation_transcript : str)
  (skill_levels : list (list str)) :
  down env -> skills_ok skill_levels ->
  select_departments env advisor_description conversation_transcript
                     skill_levels st
  = (Return [], after st 3 [1; 2]%Z) /\
  (forall selected_departments,
      (forall d, In d selected_departments ->
                 group_ok (_load_department_courses env d) = true) ->
      select_courses_with_prerequisites
        env selected_departments advisor_description conversation_transcript
        skill_levels st
      = (Return [],
         after st (3 * length (asked env selected_departments))
               (concat (repeat [1; 2]%Z
                               (length (asked env selected_departments)))))) /\
  (forall courses_with_prereqs student_profile,
      courses_with_prereqs <> [] ->
      forallb course_ok courses_with_prereqs = true ->
      create_learning_roadmap env courses_with_prereqs student_profile st
      = (Return (error_dict (lit "Failed to create roadmap")),
         after st 3 [1; 2]%Z)).
Proof.
  intros Hdown Hskills.
  destruct (format_skills_ok Hskills) as [skills_text Hs].
  split; [|split].
  - unfold select_departments, bind at 1. unfold lift at 1. rewrite Hs.
    unfold try_except, bind at 1.
    rewrite call_api_down by (intros; apply Hdown). reflexivity.
  - intros ds Hok. unfold select_courses_with_prerequisites, bind, lift.
    rewrite Hs. apply courses_loop_down; assumption.
  - intros courses profile Hne Hok. unfold create_learning_roadmap.
    destruct courses as [|course courses]; [contradiction|].
    destruct (map_result_ok course_entry (course :: courses)) as [entries He].
    { intros x Hx. apply course_entry_ok.
      rewrite forallb_forall in Hok. apply Hok. exact Hx. }
    unfold bind at 1. unfold lift at 1. rewrite He.
    unfold try_except, bind at 1.
    rewrite call_api_down by (intros; apply Hdown). reflexivity.
Qed.

Lemma stages_when_service_down_witness :
  select_departments down_env [] [] [] init
  = (Return [], after init 3 [1; 2]%Z) /\
  select_courses_with_prerequisites
    down_env [lit "Alchemy"; lit "Physics"] [] [] [] init
  = (Return [], after init 3 [1; 2]%Z) /\
  create_learning_roadmap down_env [JObject []] None init
  = (Return (error_dict (lit "Failed to create roadmap")),
     after init 3 [1; 2]%Z).
Proof.
  assert (Hd : down down_env) by (intros n p; reflexivity).
  assert (Hs : skills_ok []) by constructor.
  destruct (stages_when_service_down init [] [] Hd Hs) as [H1 [H2 H3]].
  split; [exact H1|]. split.
  - apply (H2 [lit "Alchemy"; lit "Physics"]).
    intros d [<-|[<-|[]]]; reflexivity.
  - apply H3; [discriminate|reflexivity].
Defined.

(** X8. A reply that lacks an opening or a closing bracket gives the
    empty list in stage 1, and a reply that lacks an opening or a
    closing brace gives the error dictionary in stage 3; the reply is
    taken as it is, without a second request. *)
Theorem reply_without_region (env : Env) (st : State)
  (advisor_description conversation_transcript : str)
  (skill_levels : list (list str)) (skills_text text : str)
  (courses_with_prereqs : list json) (student_profile : option json)
  (entries : list (json * json * json * str)) :
  (format_skills skill_levels = Return skills_text ->
   service env (requests st)
           (departments_prompt advisor_description conversation_transcript
                               skills_text st) = Some text ->
   ~ In lbracket text \/ ~ In rbracket text ->
   select_departments env advisor_description conversation_transcript
                      skill_levels st
   = (Return [], after st 1 [])) /\
  (courses_with_prereqs <> [] ->
   map_result course_entry courses_with_prereqs = Return entries ->
   service env (requests st) (roadmap_prompt entries student_profile)
   = Some text ->
   ~ In lbrace text \/ ~ In rbrace text ->
   create_learning_roadmap env courses_with_prereqs student_profile st
   = (Return (error_dict (lit "Failed to create roadmap")), after st 1 [])).
Proof.
  split.
  - intros Hs Hservice Hno.
    unfold select_departments, bind at 1. unfold lift at 1. rewrite Hs.
    unfold try_except, bind at 1.
    unfold departments_prompt in Hservice.
    rewrite (call_api_first _ _ _ Hservice).
    assert (Hsearch : Re.search array_pattern text = None).
    { destruct Hno as [H|H];
        [apply ReMore.search_none_open|apply ReMore.search_none_close];
        auto. }
    destruct text as [|c text]; [reflexivity|].
    unfold nonempty. rewrite Hsearch. reflexivity.
  - intros Hne He Hservice Hno. unfold create_learning_roadmap.
    destruct courses_with_prereqs as [|course courses]; [contradiction|].
    unfold bind at 1. unfold lift at 1. rewrite He.
    unfold try_except, bind at 1.
    unfold roadmap_prompt in Hservice.
    rewrite (call_api_first _ _ _ Hservice).
    assert (Hsearch : Re.search object_pattern text = None).
    { destruct Hno as [H|H];
        [apply ReMore.search_none_open|apply ReMore.search_none_close];
        auto. }
    destruct text as [|c text]; [reflexivity|].
    unfold nonempty. rewrite Hsearch. reflexivity.
Qed.

Lemma reply_without_region_witness :
  select_departments prose_env [] [] [] init = (Return [], after init 1 []) /\
  create_learning_roadmap prose_env [JObject []] None init
  = (Return (error_dict (lit "Failed to create roadmap")), after init 1 []).
Proof.
  destruct (@reply_without_region
              prose_env init [] [] [] [] (lit "I cannot decide.")
              [JObject []] None
              [(JString (lit "Unknown"), JString (lit "Unknown"),
                JString (lit "No description"), lit "None")])
    as [H1 H2].
  split.
  - apply H1; [reflexivity|reflexivity|].
    left. apply not_in_dec. vm_compute. reflexivity.
  - apply H2; [discriminate|reflexivity|reflexivity|].
    left. apply not_in_dec. vm_compute. reflexivity.
Defined.

(** ** Entries of the reply that are no strings *)

Lemma valid_departments_any (catalog : list (str * Z)) (items : list json) :
  valid_departments items catalog
  = if existsb unhashable items then Raise TypeError
    else Return (filter (fun d => dict_has d catalog) (strings_of items)).
Proof.
  induction items as [|dept rest IH]; [reflexivity|].
  cbn [valid_departments existsb strings_of flat_map].
  fold (strings_of rest).
  destruct dept; cbn [unhashable orb app]; try exact IH; try reflexivity.
  rewrite IH. destruct (existsb unhashable rest); [reflexivity|].
  cbn [rbind filter]. destruct (dict_has s catalog); reflexivity.
Qed.

(** X9. In the parsed reply of stage 1, numbers, booleans and nulls
    are passed over like unknown names; but one entry that is a list or
    a dictionary voids the whole selection: the result is then empty
    even if other entries name departments of the catalog. *)
Theorem select_departments_mixed_reply (env : Env)
  (advisor_description conversation_transcript : str)
  (skill_levels : list (list str)) (st : State)
  (skills_text response json_match : str) (items : list json) :
  format_skills skill_levels = Return skills_text ->
  fst (_call_claude_api env
         (departments_prompt advisor_description conversation_transcript
                             skills_text st) 3 st) = Some response ->
  Re.search array_pattern response = Some json_match ->
  json_loads json_match = Return (JArray items) ->
  fst (select_departments env advisor_description conversation_transcript
                          skill_levels st)
  = Return (if existsb unhashable items then []
            else firstn 3 (filter (fun d => dict_has d (available_departments st))
                                  (strings_of items))).
Proof.
  intros Hskills Hcall Hsearch Hloads.
  unfold select_departments, bind, lift. rewrite Hskills.
  unfold try_except, bind, call_api, ret.
  unfold departments_prompt in Hcall.
  pose proof (call_api_catalog env
                (DepartmentsPrompt advisor_description conversation_transcript
                   skills_text (format_departments (available_departments st)))
                st) as Hcat.
  destruct (_call_claude_api env _ 3 st) as [r st1]. simpl in Hcall, Hcat.
  subst r.
  destruct response as [|c response]; [discriminate Hsearch|].
  unfold nonempty. rewrite Hsearch. unfold lift. rewrite Hloads.
  cbn [py_iter]. rewrite valid_departments_any, Hcat.
  destruct (existsb unhashable items); reflexivity.
Qed.

Lemma select_departments_mixed_reply_witness :
  fst (select_departments mixed_env [] [] [] init) = Return [].
Proof.
  refine (@select_departments_mixed_reply
            mixed_env [] [] [] init []
            (jlit "[`Mathematics`, 7, {`name`: `Physics`}, `Biology`]")
            (jlit "[`Mathematics`, 7, {`name`: `Physics`}, `Biology`]")
            [JString (lit "Mathematics"); JInt 7;
             JObject [(lit "name", JString (lit "Physics"))];
             JString (lit "Biology")] _ _ _ _);
    vm_compute; reflexivity.
Defined.

(** ** Exceptions come before requests *)

Lemma course_entry_raise (course : json) (e : exn) :
  course_entry course = Raise e -> e = AttributeError \/ e = TypeError.
Proof.
  unfold course_entry. destruct course; cbn [py_get rbind];
    try (intros H; injection H as <-; auto; fail).
  destruct (py_join (lit ", ") _) as [prereqs|e'] eqn:J; cbn [rbind].
  - discriminate.
  - intros H; injection H as <-. right.
    unfold py_join in J.
    destruct (py_iter _) as [items|e1] eqn:I; cbn [rbind] in J.
    + destruct (all_strings items) as [ss|e2] eqn:S; [discriminate|].
      injection J as <-. clear - S.
      induction items as [|v items IH]; [discriminate|].
      simpl in S. destruct v; try (injection S as <-; reflexivity).
      destruct (all_strings items); [discriminate|].
      injection S as <-. apply IH. reflexivity.
    + injection J as <-.
      destruct (match dict_get (lit "prerequisites") members with
                | Some x => x | None => JArray [] end);
        simpl in I; try discriminate; injection I as <-; reflexivity.
Qed.

Lemma map_result_raise {X Y} (f : X -> result Y) (l : list X) (e : exn) :
  map_result f l = Raise e -> exists x, In x l /\ f x = Raise e.
Proof.
  induction l as [|x l IH]; simpl; [discriminate|].
  destruct (f x) as [y|e'] eqn:F; cbn [rbind].
  - destruct (map_result f l) as [ys|e'']; cbn [rbind]; [discriminate|].
    intros H; injection H as <-. destruct (IH eq_refl) as [x' [Hx' F']].
    exists x'. auto.
  - intros H; injection H as <-. exists x. auto.
Qed.

(** X10. Stage 1 and stage 3 raise only while they write their prompt:
    when one of them raises, no request has been sent and no sleep
    taken.  Stage 1 raises nothing but [IndexError], stage 3 nothing
    but [AttributeError] (a course that is no dictionary) and
    [TypeError] (prerequisites that cannot be joined). *)
Theorem stages_raise_before_asking (env : Env) (st st' : State) (e : exn)
  (advisor_description conversation_transcript : str)
  (skill_levels : list (list str))
  (courses_with_prereqs : list json) (student_profile : option json) :
  (select_departments env advisor_description conversation_transcript
                      skill_levels st = (Raise e, st') ->
   st' = st /\ e = IndexError) /\
  (create_learning_roadmap env courses_with_prereqs student_profile st
   = (Raise e, st') ->
   st' = st /\ (e = AttributeError \/ e = TypeError)).
Proof.
  split.
  - intros H.
    destruct (select_departments_cases env advisor_description
                conversation_transcript skill_levels st)
      as [[e0 [He E]]|[sel [st0 [E _]]]]; rewrite H in E;
      [|discriminate E].
    injection E as -> ->. split; [reflexivity|].
    apply format_skills_raise in He. tauto.
  - unfold create_learning_roadmap.
    destruct courses_with_prereqs as [|course courses];
      [unfold ret; discriminate|].
    unfold bind at 1. unfold lift at 1.
    destruct (map_result course_entry (course :: courses)) as [entries|e0]
      eqn:M.
    + unfold try_except.
      match goal with
      | |- context [bind ?m ?k st] => destruct (bind m k st) as [[v|e1] st1]
      end; unfold ret; discriminate.
    + intros H; injection H as -> ->. split; [reflexivity|].
      apply map_result_raise in M as [x [_ Hx]].
      apply course_entry_raise in Hx. exact Hx.
Qed.

Lemma stages_raise_before_asking_witness :
  (select_departments careless_env [] [] [[lit "Mathematics"]] init
   = (Raise IndexError, init) /\
   (init = init /\ IndexError = IndexError)) /\
  (create_learning_roadmap
     careless_env [JObject [(lit "prerequisites", JInt 5)]] None init
   = (Raise TypeError, init) /\
   (init = init /\ (TypeError = AttributeError \/ TypeError = TypeError))).
Proof.
  split; (split; [vm_compute; reflexivity|]).
  - apply (proj1 (@stages_raise_before_asking
                    careless_env init init IndexError [] []
                    [[lit "Mathematics"]] [] None)).
    vm_compute. reflexivity.
  - apply (proj2 (@stages_raise_before_asking
                    careless_env init init TypeError [] [] []
                    [JObject [(lit "prerequisites", JInt 5)]] None)).
    vm_compute. reflexivity.
Defined.

(** ** Departments without courses, and courses past the fiftieth *)

(** X11. When no selected department has a course group to show (no
    file, a file that cannot be read or parsed, or a file holding an
    empty value), stage 2 returns the empty list and sends no request;
    so it does for the empty selection. *)
Theorem select_courses_nothing_to_ask (env : Env) (st : State)
  (selected_departments : list str)
  (advisor_description conversation_transcript : str)
  (skill_levels : list (list str)) :
  skills_ok skill_levels ->
  (forall d, In d selected_departments ->
             truthy (_load_department_courses env d) = false) ->
  select_courses_with_prerequisites
    env selected_departments advisor_description conversation_transcript
    skill_levels st
  = (Return [], st).
Proof.
  intros Hskills Hload.
  destruct (format_skills_ok Hskills) as [skills_text Hs].
  unfold select_courses_with_prerequisites, bind, lift. rewrite Hs.
  generalize (@nil json) as acc.
  induction selected_departments as [|d rest IH]; intros acc;
    cbn [courses_loop]; [reflexivity|].
  rewrite (Hload d (or_introl eq_refl)). cbn [negb].
  apply IH. intros d' Hd'. apply Hload. right; exact Hd'.
Qed.

Lemma select_courses_nothing_to_ask_witness :
  select_courses_with_prerequisites
    physics_only_env [lit "Alchemy"; lit "History"] [] [] [] init
  = (Return [], init).
Proof.
  apply select_courses_nothing_to_ask.
  - constructor.
  - intros d [<-|[<-|[]]]; reflexivity.
Defined.

Lemma attempts_same_service (env1 env2 : Env) (prompt : Prompt)
  (max_retries : Z) (todo : nat) :
  service env1 = service env2 ->
  forall attempt st,
    attempts env1 prompt max_retries todo attempt st
    = attempts env2 prompt max_retries todo attempt st.
Proof.
  intros H. induction todo as [|todo IH]; intros attempt st; [reflexivity|].
  cbn [attempts]. unfold messages_create. rewrite H.
  destruct (service env2 (requests st) prompt); [reflexivity|].
  destruct (attempt <? max_retries - 1)%Z; [apply IH|reflexivity].
Qed.

Lemma ask_courses_same_service (env1 env2 : Env) (prompt : Prompt)
  (st : State) :
  service env1 = service env2 ->
  ask_courses env1 prompt st = ask_courses env2 prompt st.
Proof.
  intros H. unfold ask_courses, bind, call_api, _call_claude_api.
  rewrite (@attempts_same_service env1 env2 prompt 3 (Z.to_nat 3) H). reflexivity.
Qed.

Lemma courses_loop_same (env1 env2 : Env) (advisor transcript skills_text : str)
  (departments : list str) :
  service env1 = service env2 ->
  (forall d, In d departments ->
     truthy (_load_department_courses env1 d)
     = truthy (_load_department_courses env2 d) /\
     format_courses (_load_department_courses env1 d)
     = format_courses (_load_department_courses env2 d)) ->
  forall acc st,
    courses_loop env1 departments advisor transcript skills_text acc st
    = courses_loop env2 departments advisor transcript skills_text acc st.
Proof.
  intros Hs. induction departments as [|d rest IH]; intros Hd acc st;
    cbn [courses_loop]; [reflexivity|].
  destruct (Hd d (or_introl eq_refl)) as [Ht Hf]. rewrite Ht, Hf.
  assert (Hrest : forall d', In d' rest ->
     truthy (_load_department_courses env1 d')
     = truthy (_load_department_courses env2 d') /\
     format_courses (_load_department_courses env1 d')
     = format_courses (_load_department_courses env2 d'))
    by (intros d' Hd'; apply Hd; right; exact Hd').
  destruct (negb (truthy (_load_department_courses env2 d)));
    [apply IH; exact Hrest|].
  unfold bind, lift, try_except.
  destruct (format_courses (_load_department_courses env2 d))
    as [courses_text|e]; [|reflexivity].
  rewrite (@ask_courses_same_service env1 env2 _ st Hs).
  destruct (ask_courses env2 _ st) as [[courses|e] st1];
    unfold ret; apply IH; exact Hrest.
Qed.

(** X12. Stage 2 never looks past the fiftieth course of a group: two
    corpora whose groups agree on their first fifty courses give, with
    the same service, the same result and the same requests. *)
Theorem select_courses_first_fifty (env1 env2 : Env) (st : State)
  (selected_departments : list str)
  (advisor_description conversation_transcript : str)
  (skill_levels : list (list str)) :
  service env1 = service env2 ->
  (forall d, In d selected_departments ->
     exists courses1 courses2,
       _load_department_courses env1 d = JArray courses1 /\
       _load_department_courses env2 d = JArray courses2 /\
       firstn 50 courses1 = firstn 50 courses2) ->
  select_courses_with_prerequisites
    env1 selected_departments advisor_description conversation_transcript
    skill_levels st
  = select_courses_with_prerequisites
      env2 selected_departments advisor_description conversation_transcript
      skill_levels st.
Proof.
  intros Hs Hd. unfold select_courses_with_prerequisites, bind, lift.
  destruct (format_skills skill_levels) as [skills_text|e]; [|reflexivity].
  apply courses_loop_same; [exact Hs|].
  intros d Hin. destruct (Hd d Hin) as [c1 [c2 [-> [-> H50]]]].
  split.
  - destruct c1, c2; simpl in *; try reflexivity; discriminate.
  - unfold format_courses. cbn [first_50 rbind py_iter].
    rewrite H50. reflexivity.
Qed.

Lemma select_courses_first_fifty_witness :
  select_courses_with_prerequisites
    (env_with_physics (repeat mechanics_text 50 ++ [optics_text]))
    [lit "Physics"] [] [] [] init
  = select_courses_with_prerequisites
      (env_with_physics (repeat mechanics_text 52))
      [lit "Physics"] [] [] [] init.
Proof.
  apply select_courses_first_fifty.
  - reflexivity.
  - intros d [<-|[]].
    exists (repeat mechanics 50 ++ [optics]), (repeat mechanics 52).
    split; [vm_compute; reflexivity|].
    split; vm_compute; reflexivity.
Defined.

(* ================================================================= *)
(** * More on sanitization *)

Module CleanFacts.

Import StrFacts.

Lemma collapse_once_cons (c : char) (s : str) :
  exists rest, collapse_once (c :: s) = c :: rest.
Proof.
  unfold collapse_once. cbn [replace_from].
  destruct (startswith [underscore; underscore] (c :: s)) eqn:E.
  - cbn [startswith] in E. apply andb_true_iff in E as [E _].
    apply N.eqb_eq in E. subst c. simpl. eauto.
  - eauto.
Qed.

Lemma collapse_once_head (s : str) (c : char) (rest : str) :
  collapse_once s = c :: rest -> exists rest0, s = c :: rest0.
Proof.
  destruct s as [|x s]; [discriminate|].
  destruct (collapse_once_cons x s) as [r ->].
  intros H; injection H as -> _. eauto.
Qed.

Lemma collapse_once_last (n : nat) :
  forall s, length s <= n ->
  forall c front, collapse_once s = front ++ [c] ->
                  exists front0, s = front0 ++ [c].
Proof.
  induction n as [|n IH]; intros s Hn c front H.
  - destruct s; [destruct front; discriminate|simpl in Hn; lia].
  - destruct s as [|x s]; [destruct front; discriminate|].
    unfold collapse_once in H. cbn [replace_from] in H.
    destruct (startswith [underscore; underscore] (x :: s)) eqn:E.
    + destruct s as [|y s];
        [cbn [startswith] in E; rewrite andb_false_r in E; discriminate|].
      cbn [startswith] in E. rewrite andb_true_r in E.
      apply andb_true_iff in E as [Ex Ey].
      apply N.eqb_eq in Ex, Ey. subst x y.
      cbn [length Nat.sub app replace_from] in H.
      fold collapse_once in H.
      destruct s as [|z s].
      * simpl in H. destruct front as [|f front].
        -- injection H as <-. exists [underscore]. reflexivity.
        -- injection H as _ H. destruct front; discriminate.
      * destruct (collapse_once_cons z s) as [r Hr].
        destruct front as [|f front].
        -- simpl in H. injection H as _ H. rewrite Hr in H. discriminate.
        -- simpl in H. injection H as _ H.
           destruct (IH (z :: s)) with (c := c) (front := front)
             as [front0 ->]; [simpl in *; lia|exact H|].
           exists (underscore :: underscore :: front0). reflexivity.
    + fold collapse_once in H. destruct s as [|z s].
      * simpl in H. destruct front as [|f front].
        -- injection H as <-. exists []. reflexivity.
        -- injection H as _ H. destruct front; discriminate.
      * destruct (collapse_once_cons z s) as [r Hr].
        destruct front as [|f front].
        -- simpl in H. injection H as _ H. rewrite Hr in H. discriminate.
        -- simpl in H. injection H as _ H.
           destruct (IH (z :: s)) with (c := c) (front := front)
             as [front0 ->]; [simpl in *; lia|exact H|].
           exists (x :: front0). reflexivity.
Qed.

Lemma tight_collapse_once (s : str) : tight s -> tight (collapse_once s).
Proof.
  intros [Hh Hl]. split.
  - intros c rest H. apply collapse_once_head in H as [rest0 ->].
    apply (Hh c rest0 eq_refl).
  - intros c front H.
    apply (collapse_once_last (n := length s)) in H as [front0 ->]; [|lia].
    apply (Hl c front0 eq_refl).
Qed.

Lemma tight_collapse_loop (fuel : nat) :
  forall s, tight s -> tight (collapse_loop fuel s).
Proof.
  induction fuel as [|fuel IH]; intros s H; simpl; [exact H|].
  destruct (contains [underscore; underscore] s); [|exact H].
  apply IH. apply (tight_collapse_once H).
Qed.

Lemma space_to_underscore_id (c : char) :
  isspace c = false -> space_to_underscore c = c.
Proof.
  unfold space_to_underscore.
  destruct (N.eqb_spec c space) as [->|_]; [discriminate|reflexivity].
Qed.

Lemma space_to_underscore_tight (c : char) :
  isspace (space_to_underscore c) = true -> isspace c = true.
Proof.
  unfold space_to_underscore.
  destruct (N.eqb_spec c space) as [->|_]; [reflexivity|auto].
Qed.

Lemma tight_map_space (s : str) : tight s -> tight (map space_to_underscore s).
Proof.
  intros [Hh Hl]. split.
  - intros c rest H. destruct s as [|x s]; [discriminate|].
    injection H as <- _.
    destruct (isspace (space_to_underscore x)) eqn:E; [|reflexivity].
    apply space_to_underscore_tight in E.
    rewrite (Hh x s eq_refl) in E. discriminate.
  - intros c front H. apply map_eq_app in H as [l1 [l2 [-> [_ H2]]]].
    destruct l2 as [|x [|y l2]]; try discriminate. injection H2 as <-.
    destruct (isspace (space_to_underscore x)) eqn:E; [|reflexivity].
    apply space_to_underscore_tight in E.
    rewrite (Hl x l1 eq_refl) in E. discriminate.
Qed.

Lemma tight_strip (s : str) : tight (strip s).
Proof.
  destruct (strip_spec s) as [l [r [_ [_ [_ [Hh Hl]]]]]]. split; assumption.
Qed.

Lemma lstrip_tight (s : str) :
  (forall c rest, s = c :: rest -> isspace c = false) -> lstrip s = s.
Proof.
  destruct s as [|x s]; [reflexivity|]. intros H. simpl.
  rewrite (H x s eq_refl). reflexivity.
Qed.

Lemma strip_tight (s : str) : tight s -> strip s = s.
Proof.
  intros [Hh Hl]. unfold strip, rstrip. rewrite (lstrip_tight Hh).
  rewrite lstrip_tight; [apply rev_involutive|].
  intros c rest H. apply (Hl c (rev rest)).
  rewrite <- (rev_involutive s), H. reflexivity.
Qed.

Lemma collapse_loop_id (fuel : nat) (s : str) :
  contains [underscore; underscore] s = false -> collapse_loop fuel s = s.
Proof. intros H. destruct fuel; simpl; [|rewrite H]; reflexivity. Qed.

Lemma collapse_loop_length (fuel : nat) :
  forall s, length (collapse_loop fuel s) <= length s.
Proof.
  induction fuel as [|fuel IH]; intros s; simpl; [lia|].
  destruct (contains [underscore; underscore] s); [|lia].
  etransitivity; [apply IH|].
  apply (collapse_step_length s (n := length s)). lia.
Qed.

Lemma clean_filename_eq (filename : str) :
  clean_filename filename
  = collapse_loop
      (length (map space_to_underscore
                   (strip (map forbidden_to_underscore filename))))
      (map space_to_underscore (strip (map forbidden_to_underscore filename))).
Proof.
  unfold clean_filename. rewrite replace_invalid_chars, replace_char.
  reflexivity.
Qed.

Lemma clean_filename_tight (filename : str) : tight (clean_filename filename).
Proof.
  rewrite clean_filename_eq.
  apply tight_collapse_loop, tight_map_space, tight_strip.
Qed.

Lemma clean_filename_no_space (filename : str) :
  ~ In space (clean_filename filename).
Proof.
  rewrite clean_filename_eq. intros H.
  apply In_collapse_loop in H as [H|H]; [|discriminate H].
  apply in_map_iff in H as [x [Hx _]].
  unfold space_to_underscore in Hx.
  destruct (N.eqb_spec x space); [discriminate Hx|congruence].
Qed.

Lemma clean_filename_no_forbidden (filename : str) (c : char) :
  In c (clean_filename filename) -> is_forbidden c = false.
Proof.
  rewrite clean_filename_eq. intros H.
  apply In_collapse_loop in H as [H| ->]; [|reflexivity].
  apply in_map_iff in H as [x [Hx H]]. apply In_strip in H.
  apply in_map_iff in H as [y [Hy _]].
  unfold space_to_underscore in Hx.
  destruct (x =? space)%N; [subst c; reflexivity|].
  subst c x. apply forbidden_to_underscore_safe.
Qed.

Lemma forbidden_not_space (c : char) :
  isspace c = true -> is_forbidden c = false.
Proof.
  intros H. destruct (is_forbidden c) eqn:E; [|reflexivity].
  apply is_forbidden_In in E. unfold invalid_chars in E. simpl in E.
  repeat (destruct E as [E|E]; [subst c; discriminate H|]). destruct E.
Qed.

End CleanFacts.

(** X13. [clean_filename] is idempotent: a sanitized name is left as it
    is when it is sanitized again. *)
Theorem clean_filename_idempotent (filename : str) :
  clean_filename (clean_filename filename) = clean_filename filename.
Proof.
  pose proof (CleanFacts.clean_filename_tight filename) as Ht.
  pose proof (CleanFacts.clean_filename_no_space filename) as Hs.
  pose proof (CleanFacts.clean_filename_no_forbidden filename) as Hf.
  assert (Hc : contains [underscore; underscore] (clean_filename filename)
               = false).
  { rewrite CleanFacts.clean_filename_eq.
    apply StrFacts.collapse_loop_fixed. lia. }
  revert Ht Hs Hf Hc. generalize (clean_filename filename) as name.
  intros name Ht Hs Hf Hc. rewrite (CleanFacts.clean_filename_eq name).
  assert (H1 : map forbidden_to_underscore name = name).
  { rewrite <- (map_id name) at 2. apply map_ext_in. intros c Hin.
    unfold forbidden_to_underscore. rewrite (Hf c Hin). reflexivity. }
  rewrite H1, (CleanFacts.strip_tight Ht).
  assert (H2 : map space_to_underscore name = name).
  { rewrite <- (map_id name) at 2. apply map_ext_in. intros c Hin.
    unfold space_to_underscore.
    destruct (N.eqb_spec c space) as [->|_]; [|reflexivity].
    exfalso. apply Hs. exact Hin. }
  rewrite H2. apply CleanFacts.collapse_loop_id. exact Hc.
Qed.

(** X14. A sanitized name is never longer than the name it comes from,
    holds no space, and neither starts nor ends with whitespace. *)
Theorem clean_filename_shape (filename : str) :
  length (clean_filename filename) <= length filename /\
  ~ In space (clean_filename filename) /\
  tight (clean_filename filename).
Proof.
  split; [|split].
  - rewrite CleanFacts.clean_filename_eq.
    etransitivity; [apply CleanFacts.collapse_loop_length|].
    rewrite length_map.
    destruct (StrFacts.strip_spec (map forbidden_to_underscore filename))
      as [l [r [E _]]].
    apply (f_equal (@length char)) in E.
    rewrite length_map, !length_app in E. lia.
  - apply CleanFacts.clean_filename_no_space.
  - apply CleanFacts.clean_filename_tight.
Qed.

(** X15. A name made of whitespace only (the empty name among them)
    is sanitized to the empty string. *)
Theorem clean_filename_blank (filename : str) :
  forallb isspace filename = true -> clean_filename filename = [].
Proof.
  intros H. rewrite CleanFacts.clean_filename_eq.
  assert (H1 : map forbidden_to_underscore filename = filename).
  { rewrite <- (map_id filename) at 2. apply map_ext_in. intros c Hin.
    rewrite forallb_forall in H. unfold forbidden_to_underscore.
    rewrite (CleanFacts.forbidden_not_space c (H c Hin)). reflexivity. }
  rewrite H1.
  assert (H2 : lstrip filename = []).
  { clear H1. induction filename as [|c s IH]; [reflexivity|].
    simpl in H. apply andb_true_iff in H as [Hc Hs].
    simpl. rewrite Hc. apply IH. exact Hs. }
  unfold strip, rstrip. rewrite H2. reflexivity.
Qed.

Lemma clean_filename_blank_witness :
  forallb isspace (lit "   ") = true /\ clean_filename (lit "   ") = [].
Proof.
  split; [reflexivity|].
  apply (clean_filename_blank (lit "   ")). reflexivity.
Defined.

(* ================================================================= *)
(** * More on the partitioner *)

Module SplitFacts.

Lemma occurrences_cons (name x : str) (names : list str) :
  occurrences name (x :: names)
  = (if Str.eqb name x then 1 else 0) + occurrences name names.
Proof.
  unfold occurrences. simpl. destruct (Str.eqb name x); reflexivity.
Qed.

Lemma occurrences_In (name : str) (names : list str) :
  In name names <-> 0 < occurrences name names.
Proof.
  induction names as [|x names IH]; [simpl; split; [tauto|unfold occurrences; simpl; lia]|].
  rewrite occurrences_cons. simpl.
  destruct (Str.eqb name x) eqn:E.
  - apply StrFacts.eqb_eq in E. subst. split; [lia|auto].
  - apply StrFacts.eqb_neq in E. rewrite IH. simpl.
    split; [intros [H|H]; [congruence|exact H]|auto].
Qed.

Lemma group_append_exact (name name' : str) (course : json)
  (departments : list (str * list json)) :
  group name (group_append name' course departments)
  = group name departments ++ repeat course (occurrences name [name']).
Proof.
  rewrite group_group_append, occurrences_cons.
  destruct (Str.eqb name name'); simpl; [reflexivity|].
  rewrite app_nil_r. reflexivity.
Qed.

Lemma place_in_exact (course : json) (names : list json) :
  forallb is_string names = true ->
  forall departments,
  exists departments',
    place_in names course departments = Return departments' /\
    forall name,
      group name departments'
      = group name departments
          ++ repeat course (occurrences name (names_of names)).
Proof.
  induction names as [|n names IH]; intros Hs departments; simpl.
  - eexists; split; [reflexivity|]. intros. rewrite app_nil_r. reflexivity.
  - simpl in Hs. apply andb_true_iff in Hs as [Hn Hs].
    destruct n; try discriminate Hn.
    destruct (IH Hs (group_append (clean_filename s) course departments))
      as [departments' [-> H]].
    eexists; split; [reflexivity|]. intros name.
    rewrite H, group_append_exact, <- app_assoc, <- repeat_app.
    cbn [names_of flat_map app]. fold (names_of names).
    rewrite (occurrences_cons name (clean_filename s) (names_of names)).
    rewrite (occurrences_cons name (clean_filename s) []).
    unfold occurrences at 1. simpl. rewrite Nat.add_0_r. reflexivity.
Qed.

Lemma place_in_return (course : json) (names : list json) :
  forall departments departments',
    place_in names course departments = Return departments' ->
    forallb is_string names = true.
Proof.
  induction names as [|n names IH]; intros d d' H; [reflexivity|].
  simpl in H. destruct n; try discriminate H.
  simpl. apply (IH _ _ H).
Qed.

Lemma place_course_exact (course : json) (departments : list (str * list json)) :
  accepted course = true ->
  exists departments',
    place_course course departments = Return departments' /\
    forall name,
      group name departments'
      = group name departments
          ++ repeat course (occurrences name (group_names course)).
Proof.
  unfold accepted, place_course, group_names.
  destruct (listed_departments course) as [v|] eqn:L; [|discriminate].
  unfold listed_departments in L. rewrite L. cbn [rbind].
  destruct (negb (truthy v)) eqn:T; cbn [orb].
  - intros _. eexists; split; [reflexivity|]. intros name.
    apply group_append_exact.
  - destruct (py_iter v) as [items|]; [|discriminate].
    intros Hs. cbn [rbind]. apply place_in_exact. exact Hs.
Qed.

Lemma place_course_return (course : json)
  (departments departments' : list (str * list json)) :
  place_course course departments = Return departments' ->
  accepted course = true.
Proof.
  unfold accepted, place_course, listed_departments.
  destruct (py_get course (lit "department_name") (JArray [])) as [v|];
    [|discriminate].
  cbn [rbind]. destruct (negb (truthy v)); [reflexivity|]. cbn [orb].
  destruct (py_iter v) as [items|]; [|discriminate]. cbn [rbind].
  apply place_in_return.
Qed.

Lemma group_loop_exact (courses : list json) :
  forallb accepted courses = true ->
  forall departments,
  exists departments',
    group_loop courses departments = Return departments' /\
    forall name,
      group name departments'
      = group name departments
          ++ flat_map (fun course =>
                         repeat course (occurrences name (group_names course)))
                      courses.
Proof.
  induction courses as [|course courses IH]; intros Hok departments; simpl.
  - eexists; split; [reflexivity|]. intros. rewrite app_nil_r. reflexivity.
  - simpl in Hok. apply andb_true_iff in Hok as [Hc Hok].
    destruct (place_course_exact course departments Hc) as [d1 [-> H1]].
    cbn [rbind]. destruct (IH Hok d1) as [d2 [-> H2]].
    eexists; split; [reflexivity|]. intros name.
    rewrite H2, H1, <- app_assoc. reflexivity.
Qed.

Lemma group_loop_return (courses : list json) :
  forall departments departments',
    group_loop courses departments = Return departments' ->
    forallb accepted courses = true.
Proof.
  induction courses as [|course courses IH]; intros d d' H; [reflexivity|].
  simpl in H. destruct (place_course course d) as [d1|] eqn:P;
    [|discriminate].
  cbn [rbind] in H. simpl.
  rewrite (place_course_return _ _ P). apply (IH _ _ H).
Qed.

(** ** The dictionary of groups *)

Lemma dict_has_false {V} (k : str) (d : list (str * V)) :
  dict_has k d = false -> ~ In k (keys d).
Proof.
  unfold dict_has. induction d as [|[k' v] d IH]; simpl; [tauto|].
  destruct (Str.eqb k k') eqn:E; [discriminate|].
  apply StrFacts.eqb_neq in E. intros H [H1|H1]; [congruence|].
  apply IH; assumption.
Qed.

Lemma keys_dict_set {V} (k : str) (v : V) (d : list (str * V)) :
  keys (dict_set k v d) = if dict_has k d then keys d else keys d ++ [k].
Proof.
  unfold dict_has. induction d as [|[k' v'] d IH]; simpl; [reflexivity|].
  destruct (Str.eqb k k') eqn:E; simpl.
  - apply StrFacts.eqb_eq in E. subst. reflexivity.
  - unfold keys in *. rewrite IH.
    destruct (dict_get k d); reflexivity.
Qed.

Lemma Forall_dict_set {V} (P : str * V -> Prop) (k : str) (v : V)
  (d : list (str * V)) :
  Forall P d -> P (k, v) -> Forall P (dict_set k v d).
Proof.
  intros Hd Hk. induction Hd as [|[k' v'] d Hx Hd IH]; simpl.
  - constructor; [exact Hk|constructor].
  - destruct (Str.eqb k k'); constructor; auto.
Qed.

Lemma NoDup_snoc {X} (x : X) (l : list X) :
  NoDup l -> ~ In x l -> NoDup (l ++ [x]).
Proof.
  induction 1 as [|y l Hy Hl IH]; intros Hx; simpl.
  - constructor; [tauto|constructor].
  - constructor.
    + rewrite in_app_iff. simpl. intros [H|[H|[]]]; [tauto|].
      apply Hx. left. symmetry. exact H.
    + apply IH. intros H; apply Hx; right; exact H.
Qed.

Lemma well_grouped_append (name : str) (course : json)
  (departments : list (str * list json)) :
  well_grouped departments ->
  well_grouped (group_append name course departments).
Proof.
  intros [Hk Hn]. unfold group_append. split.
  - rewrite keys_dict_set. destruct (dict_has name departments) eqn:E;
      [exact Hk|].
    apply NoDup_snoc; [exact Hk|apply dict_has_false; exact E].
  - apply Forall_dict_set; [exact Hn|]. simpl.
    intros H. apply app_eq_nil in H as [_ H]. discriminate.
Qed.

Lemma well_grouped_place_in (course : json) (names : list json) :
  forall departments departments',
    well_grouped departments ->
    place_in names course departments = Return departments' ->
    well_grouped departments'.
Proof.
  induction names as [|n names IH]; intros d d' Hw H; simpl in H.
  - injection H as <-. exact Hw.
  - destruct n; try discriminate H.
    apply (IH _ _ (well_grouped_append _ course Hw) H).
Qed.

Lemma well_grouped_place_course (course : json)
  (departments departments' : list (str * list json)) :
  well_grouped departments ->
  place_course course departments = Return departments' ->
  well_grouped departments'.
Proof.
  unfold place_course. intros Hw.
  destruct (py_get course (lit "department_name") (JArray [])) as [v|];
    [|discriminate].
  cbn [rbind]. destruct (negb (truthy v)).
  - intros H; injection H as <-. apply well_grouped_append. exact Hw.
  - destruct (py_iter v) as [items|]; [|discriminate]. cbn [rbind].
    apply well_grouped_place_in. exact Hw.
Qed.

Lemma well_grouped_loop (courses : list json) :
  forall departments departments',
    well_grouped departments ->
    group_loop courses departments = Return departments' ->
    well_grouped departments'.
Proof.
  induction courses as [|course courses IH]; intros d d' Hw H; simpl in H.
  - injection H as <-. exact Hw.
  - destruct (place_course course d) as [d1|] eqn:P; [|discriminate].
    cbn [rbind] in H.
    apply (IH _ _ (well_grouped_place_course _ Hw P) H).
Qed.

Lemma group_nonempty_iff (departments : list (str * list json)) (name : str) :
  Forall (fun kv => snd kv <> []) departments ->
  (In name (keys departments) <-> group name departments <> []).
Proof.
  unfold group. induction 1 as [|[k v] d Hx Hd IH]; simpl.
  - split; [tauto|congruence].
  - destruct (Str.eqb name k) eqn:E.
    + apply StrFacts.eqb_eq in E. subst. simpl in Hx. split; auto.
    + apply StrFacts.eqb_neq in E. rewrite <- IH.
      split; [intros [H|H]; [congruence|exact H]|auto].
Qed.

End SplitFacts.

(** X16. For every corpus on which the grouping loop does not raise,
    each group holds its records in the order of the corpus, a record
    once for every time it lists the group's name: the group of a name
    is the corpus with every record repeated as often as its list names
    the group. *)
Theorem split_courses_groups_exact (courses : list json) :
  forallb accepted courses = true ->
  exists departments,
    split_courses_by_department (JArray courses) = Return departments /\
    forall name,
      group name departments
      = flat_map (fun course =>
                    repeat course (occurrences name (group_names course)))
                 courses.
Proof.
  intros Hok. unfold split_courses_by_department. cbn [py_iter rbind].
  destruct (SplitFacts.group_loop_exact courses Hok []) as [d [-> H]].
  exists d. split; [reflexivity|]. intros name. apply H.
Qed.

Lemma split_courses_groups_exact_witness :
  exists departments,
    split_courses_by_department (JArray example_corpus) = Return departments /\
    forall name,
      group name departments
      = flat_map (fun course =>
                    repeat course (occurrences name (group_names course)))
                 example_corpus.
Proof.
  apply (split_courses_groups_exact example_corpus). reflexivity.
Defined.

(** X17. The grouping loop returns groups exactly when every entry of
    the corpus is a mapping whose [department_name] is missing, empty or
    iterates over strings; one other entry anywhere makes the whole
    call raise, and no groups are produced. *)
Theorem split_courses_returns_iff (courses : list json) :
  (exists departments,
      split_courses_by_department (JArray courses) = Return departments) <->
  forallb accepted courses = true.
Proof.
  unfold split_courses_by_department. cbn [py_iter rbind]. split.
  - intros [d H]. apply (SplitFacts.group_loop_return _ _ H).
  - intros H. destruct (SplitFacts.group_loop_exact courses H []) as [d [E _]].
    eauto.
Qed.

Lemma split_courses_returns_iff_witness :
  exists departments,
    split_courses_by_department (JArray example_corpus) = Return departments.
Proof.
  apply (proj2 (split_courses_returns_iff example_corpus)). reflexivity.
Defined.

(** X18. Whatever the corpus, the groups that are returned have
    distinct names and none of them is empty: a name is a key exactly
    when its group has a record. *)
Theorem split_courses_no_empty_group (courses_data : json)
  (departments : list (str * list json)) :
  split_courses_by_department courses_data = Return departments ->
  NoDup (keys departments) /\
  forall name, In name (keys departments) <-> group name departments <> [].
Proof.
  unfold split_courses_by_department.
  destruct (py_iter courses_data) as [courses|]; [|discriminate].
  cbn [rbind]. intros H.
  assert (Hw : well_grouped []) by (split; constructor).
  destruct (SplitFacts.well_grouped_loop _ Hw H) as [Hk Hn].
  split; [exact Hk|]. intros name.
  apply SplitFacts.group_nonempty_iff. exact Hn.
Qed.

Lemma split_courses_no_empty_group_witness :
  exists departments,
    split_courses_by_department (JArray example_corpus) = Return departments /\
    NoDup (keys departments) /\
    forall name, In name (keys departments) <-> group name departments <> [].
Proof.
  destruct (split_courses_by_department (JArray example_corpus))
    as [departments|e] eqn:E; [|vm_compute in E; discriminate E].
  exists departments. split; [reflexivity|].
  apply (@split_courses_no_empty_group (JArray example_corpus)). exact E.
Defined.

(** X19. A record that gives its department as a plain string is put
    into one group for each character of the string, since the loop
    iterates over what it finds under [department_name]. *)
Theorem split_courses_string_department (courses : list json)
  (course : json) (dept : str) (departments : list (str * list json)) :
  split_courses_by_department (JArray courses) = Return departments ->
  In course courses ->
  listed_departments course = Return (JString dept) ->
  forall c, In c dept -> In course (group (clean_filename [c]) departments).
Proof.
  intros Hsplit Hin Hl c Hc.
  unfold split_courses_by_department in Hsplit. cbn [py_iter rbind] in Hsplit.
  pose proof (SplitFacts.group_loop_return _ _ Hsplit) as Hok.
  destruct (SplitFacts.group_loop_exact courses Hok []) as [d [E H]].
  rewrite E in Hsplit. injection Hsplit as <-.
  rewrite H. simpl. apply in_flat_map. exists course. split; [exact Hin|].
  assert (Hn : In (clean_filename [c]) (group_names course)).
  { unfold group_names. rewrite Hl.
    destruct dept as [|x dept]; [destruct Hc|]. cbn [truthy negb py_iter].
    unfold names_of. apply in_flat_map.
    exists (JString [c]). split; [|left; reflexivity].
    apply in_map_iff. exists c. auto. }
  apply SplitFacts.occurrences_In in Hn.
  destruct (occurrences (clean_filename [c]) (group_names course));
    [lia|left; reflexivity].
Qed.

Lemma split_courses_string_department_witness :
  In math_record
     (group (lit "a")
        [(lit "M", [math_record]); (lit "a", [math_record]);
         (lit "t", [math_record]); (lit "h", [math_record])]).
Proof.
  apply (@split_courses_string_department
           [math_record] math_record (lit "Math")
           [(lit "M", [math_record]); (lit "a", [math_record]);
            (lit "t", [math_record]); (lit "h", [math_record])]
           eq_refl (or_introl eq_refl) eq_refl 97%N).
  right; left; reflexivity.
Defined.

(* ================================================================= *)
(** * [get_all_departments] *)

Module SortFacts.

Lemma ltb_irrefl (a : str) : str_ltb a a = false.
Proof.
  induction a as [|x a IH]; simpl; [reflexivity|].
  rewrite N.ltb_irrefl, N.eqb_refl, IH. reflexivity.
Qed.

Lemma ltb_trans (a : str) :
  forall b c, str_ltb a b = true -> str_ltb b c = true -> str_ltb a c = true.
Proof.
  induction a as [|x a IH]; intros [|y b] [|z c]; simpl; try congruence.
  rewrite !orb_true_iff, !andb_true_iff, !N.ltb_lt, !N.eqb_eq.
  intros [H1|[H1 H1']] [H2|[H2 H2']].
  - left; lia.
  - left; lia.
  - left; lia.
  - right. split; [lia|]. apply (IH b c); assumption.
Qed.

Lemma ltb_total (a : str) :
  forall b, a <> b -> str_ltb a b = true \/ str_ltb b a = true.
Proof.
  induction a as [|x a IH]; intros [|y b] H; simpl; auto; try congruence.
  rewrite !orb_true_iff, !andb_true_iff, !N.ltb_lt, !N.eqb_eq.
  destruct (N.lt_trichotomy x y) as [L|[E|L]]; auto.
  subst y. destruct (IH b) as [H1|H1]; [congruence| |]; auto.
Qed.

Lemma In_insert (x y : str) (l : list str) :
  In y (insert_sorted x l) <-> y = x \/ In y l.
Proof.
  induction l as [|z l IH]; simpl; [intuition|].
  destruct (str_ltb z x); simpl; [rewrite IH|]; intuition.
Qed.

Lemma In_sorted (y : str) (l : list str) : In y (sorted_strs l) <-> In y l.
Proof.
  induction l as [|x l IH]; simpl; [tauto|].
  rewrite In_insert, IH. intuition.
Qed.

Lemma ascending_insert (x : str) (l : list str) :
  ascending l -> ~ In x l -> ascending (insert_sorted x l).
Proof.
  unfold ascending. induction 1 as [|y l Hl IH Hd]; intros Hx; simpl.
  - repeat constructor.
  - destruct (str_ltb y x) eqn:E.
    + constructor; [apply IH; intros H; apply Hx; right; exact H|].
      destruct l as [|z l]; simpl; [constructor; exact E|].
      destruct (str_ltb z x); constructor; [|exact E].
      inversion Hd; assumption.
    + assert (Hlt : str_ltb x y = true).
      { destruct (@ltb_total x y) as [H|H]; [|exact H|congruence].
        intros ->. apply Hx. left; reflexivity. }
      constructor; [constructor; assumption|constructor; exact Hlt].
Qed.

Lemma ascending_sorted (l : list str) : NoDup l -> ascending (sorted_strs l).
Proof.
  induction 1 as [|x l Hx Hl IH]; simpl; [constructor|].
  apply ascending_insert; [exact IH|]. rewrite In_sorted. exact Hx.
Qed.

Lemma set_add_spec (x : str) (s : list str) :
  NoDup s ->
  NoDup (set_add x s) /\ forall y, In y (set_add x s) <-> y = x \/ In y s.
Proof.
  intros Hs. unfold set_add. destruct (existsb (Str.eqb x) s) eqn:E.
  - split; [exact Hs|]. intros y. split; [auto|].
    intros [->|H]; [|exact H].
    apply existsb_exists in E as [z [Hz Ez]].
    apply StrFacts.eqb_eq in Ez. subst. exact Hz.
  - assert (Hx : ~ In x s).
    { intros H. assert (existsb (Str.eqb x) s = true); [|congruence].
      apply existsb_exists. exists x. split; [exact H|apply StrFacts.eqb_refl]. }
    split; [apply SplitFacts.NoDup_snoc; assumption|].
    intros y. rewrite in_app_iff. simpl. intuition.
Qed.

Lemma set_of_spec (l : list str) :
  NoDup (set_of l) /\ forall y, In y (set_of l) <-> In y l.
Proof.
  unfold set_of.
  assert (H : forall s, NoDup s ->
            NoDup (fold_left (fun s x => set_add x s) l s) /\
            forall y, In y (fold_left (fun s x => set_add x s) l s)
                      <-> In y s \/ In y l).
  { induction l as [|x l IH]; intros s Hs; simpl; [intuition|].
    destruct (set_add_spec x Hs) as [Hn Hin].
    destruct (IH _ Hn) as [Hn' Hin']. split; [exact Hn'|].
    intros y. rewrite Hin', Hin. intuition. }
  destruct (H [] (NoDup_nil _)) as [Hn Hin]. split; [exact Hn|].
  intros y. rewrite Hin. simpl. tauto.
Qed.

Lemma only_strings_map (names : list str) :
  only_strings (map JString names) = Some names.
Proof.
  induction names as [|n names IH]; simpl; [reflexivity|].
  rewrite IH. reflexivity.
Qed.

Lemma strings_items (items : list json) :
  forallb is_string items = true -> items = map JString (strings_of items).
Proof.
  induction items as [|v items IH]; simpl; intros H; [reflexivity|].
  apply andb_true_iff in H as [Hv H]. destruct v; try discriminate Hv.
  simpl. f_equal. apply IH. exact H.
Qed.

Lemma check_hashable_strings (names : list str) :
  check_hashable (map JString names) = Return (map JString names).
Proof.
  induction names as [|n names IH]; simpl; [reflexivity|].
  rewrite IH. reflexivity.
Qed.

Lemma names_added_accepted (course : json) :
  accepted course = true ->
  names_added course = Return (map JString (raw_names course)).
Proof.
  unfold accepted, names_added, raw_names, listed_departments.
  destruct (py_get course (lit "department_name") (JArray [])) as [v|];
    [|discriminate].
  cbn [rbind]. destruct (truthy v); cbn [negb orb]; [|reflexivity].
  destruct (py_iter v) as [items|]; [|discriminate]. intros H.
  cbn [rbind]. rewrite (strings_items items H) at 1.
  rewrite check_hashable_strings. reflexivity.
Qed.

Lemma collect_names_accepted (courses : list json) :
  forallb accepted courses = true ->
  collect_names courses = Return (map JString (flat_map raw_names courses)).
Proof.
  induction courses as [|course courses IH]; simpl; intros H; [reflexivity|].
  apply andb_true_iff in H as [Hc H].
  rewrite (names_added_accepted course Hc), (IH H). cbn [rbind].
  rewrite map_app. reflexivity.
Qed.

Lemma names_of_strings (items : list json) :
  names_of items = map clean_filename (strings_of items).
Proof.
  induction items as [|v items IH]; simpl; [reflexivity|].
  fold (names_of items). fold (strings_of items).
  destruct v; simpl; rewrite IH; reflexivity.
Qed.

Lemma group_names_accepted (course : json) :
  accepted course = true ->
  group_names course
  = if unlisted course then [lit "Others"]
    else map clean_filename (raw_names course).
Proof.
  unfold accepted, group_names, unlisted, raw_names.
  destruct (listed_departments course) as [v|]; [|discriminate].
  destruct (truthy v); cbn [negb orb]; [|reflexivity].
  destruct (py_iter v) as [items|]; [|discriminate]. intros _.
  apply names_of_strings.
Qed.

Lemma unlisted_raw_names (course : json) :
  unlisted course = true -> raw_names course = [].
Proof.
  unfold unlisted, raw_names.
  destruct (listed_departments course) as [v|]; [|discriminate].
  destruct (truthy v); [discriminate|reflexivity].
Qed.

End SortFacts.

Section GetAll.

Variable sorted_scalars : list json -> result (list json).
Variable env : Env.
Variable input_file_path : str.

(** X21. For a corpus on whose records the partitioner does not raise
    and whose department names are strings, [get_all_departments]
    returns the names in strictly ascending order, so each once, and a
    name is returned exactly when some record lists it. *)
Theorem get_all_departments_sorted (content : str) (courses : list json) :
  files env input_file_path = Some (FileText content) ->
  json_loads content = Return (JArray courses) ->
  forallb accepted courses = true ->
  exists names,
    get_all_departments sorted_scalars env input_file_path
    = Return (map JString names) /\
    ascending names /\
    forall name,
      In name names <->
      exists course, In course courses /\ In name (raw_names course).
Proof.
  intros Hfile Hjson Hok.
  exists (sorted_strs (set_of (flat_map raw_names courses))).
  destruct (SortFacts.set_of_spec (flat_map raw_names courses)) as [Hn Hin].
  split; [|split].
  - unfold get_all_departments. rewrite Hfile, Hjson. cbn [py_iter rbind].
    rewrite (SortFacts.collect_names_accepted courses Hok). cbn [rbind].
    unfold sorted_set. rewrite SortFacts.only_strings_map. reflexivity.
  - apply SortFacts.ascending_sorted. exact Hn.
  - intros name. rewrite SortFacts.In_sorted, Hin, in_flat_map. reflexivity.
Qed.

(** X22. The two functions of the partitioner agree: on such a corpus
    the groups made by [split_courses_by_department] are named by the
    sanitized forms of the names that [get_all_departments] returns,
    and by Others when some record lists no department; there is no
    other group. *)
Theorem split_groups_are_departments (content : str) (courses : list json) :
  files env input_file_path = Some (FileText content) ->
  json_loads content = Return (JArray courses) ->
  forallb accepted courses = true ->
  exists names departments,
    get_all_departments sorted_scalars env input_file_path
    = Return (map JString names) /\
    split_courses_by_department (JArray courses) = Return departments /\
    forall group_name,
      In group_name (keys departments) <->
      (group_name = lit "Others" /\ existsb unlisted courses = true) \/
      (exists name, In name names /\ group_name = clean_filename name).
Proof.
  intros Hfile Hjson Hok.
  exists (sorted_strs (set_of (flat_map raw_names courses))).
  destruct (SortFacts.set_of_spec (flat_map raw_names courses)) as [_ Hin].
  destruct (SplitFacts.group_loop_exact courses Hok []) as [d [E Hg]].
  exists d. split; [|split].
  - unfold get_all_departments. rewrite Hfile, Hjson. cbn [py_iter rbind].
    rewrite (SortFacts.collect_names_accepted courses Hok). cbn [rbind].
    unfold sorted_set. rewrite SortFacts.only_strings_map. reflexivity.
  - unfold split_courses_by_department. cbn [py_iter rbind]. exact E.
  - intros g.
    assert (Hw : well_grouped d).
    { apply (SplitFacts.well_grouped_loop courses (departments := [])
               (departments' := d)); [split; constructor|exact E]. }
    destruct Hw as [_ Hne].
    rewrite (SplitFacts.group_nonempty_iff g Hne), Hg.
    change (group g []) with (@nil json). cbn [app].
    assert (Hin_g : forall course, In course courses ->
              (In g (group_names course) <->
               (g = lit "Others" /\ unlisted course = true) \/
               (exists name, In name (raw_names course) /\
                             g = clean_filename name))).
    { intros course Hc. rewrite forallb_forall in Hok.
      rewrite (SortFacts.group_names_accepted course (Hok course Hc)).
      destruct (unlisted course) eqn:U.
      - rewrite (SortFacts.unlisted_raw_names course U). simpl.
        split.
        + intros [<-|[]]. left. auto.
        + intros [[-> _]|[name [[] _]]]. left; reflexivity.
      - rewrite in_map_iff. split.
        + intros [name [<- Hn]]. right. eauto.
        + intros [[_ H]|[name [Hn ->]]]; [discriminate|eauto]. }
    split.
    + intros Hne'.
      destruct (flat_map
                  (fun course => repeat course
                     (occurrences g (group_names course))) courses)
        as [|x l] eqn:F; [congruence|].
      assert (Hx : In x (flat_map
                (fun course => repeat course
                   (occurrences g (group_names course))) courses))
        by (rewrite F; left; reflexivity).
      apply in_flat_map in Hx as [course [Hc Hr]].
      assert (Ho : In g (group_names course)).
      { apply SplitFacts.occurrences_In.
        destruct (occurrences g (group_names course)); [destruct Hr|lia]. }
      apply (Hin_g course Hc) in Ho as [[-> U]|[name [Hn ->]]].
      * left. split; [reflexivity|]. apply existsb_exists. eauto.
      * right. exists name. split; [|reflexivity].
        rewrite SortFacts.In_sorted, Hin, in_flat_map. eauto.
    + intros H.
      assert (Hc : exists course, In course courses /\
                                  In g (group_names course)).
      { destruct H as [[-> U]|[name [Hn ->]]].
        - apply existsb_exists in U as [course [Hc U]].
          exists course. split; [exact Hc|]. apply (Hin_g course Hc). auto.
        - rewrite SortFacts.In_sorted, Hin, in_flat_map in Hn.
          destruct Hn as [course [Hc Hn]].
          exists course. split; [exact Hc|]. apply (Hin_g course Hc).
          right. eauto. }
      destruct Hc as [course [Hc Ho]].
      apply SplitFacts.occurrences_In in Ho.
      intros F.
      assert (Hx : In course (flat_map
                (fun course => repeat course
                   (occurrences g (group_names course))) courses)).
      { apply in_flat_map. exists course. split; [exact Hc|].
        destruct (occurrences g (group_names course)); [lia|].
        left; reflexivity. }
      rewrite F in Hx. destruct Hx.
Qed.

End GetAll.

Lemma get_all_departments_sorted_witness :
  exists names,
    get_all_departments (fun _ => Raise TypeError) corpus_env (lit "all.json")
    = Return (map JString names) /\
    ascending names /\
    forall name,
      In name names <->
      exists course, In course corpus_records /\ In name (raw_names course).
Proof.
  apply (@get_all_departments_sorted
           (fun _ => Raise TypeError) corpus_env (lit "all.json")
           (jlit "[{`department_name`: [`Physics`, `Biology`]}, {`department_name`: [`Biology`]}, {`title`: `x`}]")
           corpus_records).
  - reflexivity.
  - vm_compute. reflexivity.
  - reflexivity.
Defined.

Lemma split_groups_are_departments_witness :
  exists names departments,
    get_all_departments (fun _ => Raise TypeError) corpus_env (lit "all.json")
    = Return (map JString names) /\
    split_courses_by_department (JArray corpus_records) = Return departments /\
    forall group_name,
      In group_name (keys departments) <->
      (group_name = lit "Others" /\ existsb unlisted corpus_records = true) \/
      (exists name, In name names /\ group_name = clean_filename name).
Proof.
  apply (@split_groups_are_departments
           (fun _ => Raise TypeError) corpus_env (lit "all.json")
           (jlit "[{`department_name`: [`Physics`, `Biology`]}, {`department_name`: [`Biology`]}, {`title`: `x`}]")
           corpus_records).
  - reflexivity.
  - vm_compute. reflexivity.
  - reflexivity.
Defined.
